(** * gulp-stylelint-checkstyle: a shallow embedding and its properties

    The plugin adapts the messages that stylelint attaches to postcss results
    into the model consumed by [checkstyle-formatter], writes the report and
    optionally echoes the issues to the console or fails the stream.

    Two revisions of the adapter live in the repository.  The later one
    (src/index.js) passes [message.severity] through; the earlier one keeps a
    [severityTypeMapping] table and has no reporters besides the report
    file.  The later revision sits at top level; of the earlier one the
    adapters, which differ, are in [Module Legacy]. *)

From Stdlib Require Import String Ascii List ZArith Lia Bool.
From Stdlib Require Import DecimalString DecimalPos DecimalZ.
Import ListNotations.
Open Scope string_scope.

Set Warnings "-register-all".

(** ** JavaScript values reaching the plugin *)

(** The fragment of JavaScript values that the option object and the message
    fields can hold.  Numbers are the integral ones; objects are opaque and
    carry a label only. *)
Inductive JsVal : Type :=
| JUndefined
| JNull
| JBool (b : bool)
| JNum (z : Z)
| JNaN
| JStr (s : string)
| JObj (label : string).

(** ToBoolean. *)
Definition truthy (v : JsVal) : bool :=
  match v with
  | JUndefined | JNull | JNaN => false
  | JBool b => b
  | JNum z => negb (Z.eqb z 0)
  | JStr s => negb (String.eqb s "")
  | JObj _ => true
  end.

(** [a || b]. *)
Definition js_or (a b : JsVal) : JsVal := if truthy a then a else b.

(** Decimal rendering of an integral number, as in a template literal. *)
Definition number_to_string (z : Z) : string :=
  NilZero.string_of_int (Z.to_int z).

(** ToPropertyKey, for the member access [obj[v]]. *)
Definition to_property_key (v : JsVal) : string :=
  match v with
  | JUndefined => "undefined"
  | JNull => "null"
  | JBool true => "true"
  | JBool false => "false"
  | JNum z => number_to_string z
  | JNaN => "NaN"
  | JStr s => s
  | JObj _ => "[object Object]"
  end.

(** [v === 'literal']. *)
Definition strict_eq_string (v : JsVal) (literal : string) : bool :=
  match v with
  | JStr s => String.eqb s literal
  | _ => false
  end.

(** An object literal: its own properties in insertion order.  Reading a
    name goes to the own properties first, then to [Object.prototype]. *)
Definition ObjectLiteral : Type := list (string * JsVal).

Definition Object_prototype : list string :=
  [ "constructor"; "hasOwnProperty"; "isPrototypeOf"; "propertyIsEnumerable";
    "toLocaleString"; "toString"; "valueOf"; "__proto__";
    "__defineGetter__"; "__defineSetter__";
    "__lookupGetter__"; "__lookupSetter__" ].

Fixpoint own_property (o : ObjectLiteral) (key : string) : option JsVal :=
  match o with
  | [] => None
  | (k, v) :: rest => if String.eqb k key then Some v else own_property rest key
  end.

Definition get_property (o : ObjectLiteral) (v : JsVal) : JsVal :=
  let key := to_property_key v in
  match own_property o key with
  | Some x => x
  | None =>
      if existsb (String.eqb key) Object_prototype
      then JObj ("Object.prototype." ++ key)
      else JUndefined
  end.

(** ** Data model *)

(** What postcss hands over: one result per processed file, carrying every
    message any plugin attached to it. *)
Module Stylelint.

Record Message : Type := mkMessage {
  line : Z;
  column : Z;
  severity : JsVal;
  text : string;
  plugin : string
}.

(** [from] stands for [result.opts.from]. *)
Record Result : Type := mkResult {
  from : string;
  messages : list Message
}.

End Stylelint.

(** What [checkstyle-formatter] takes. *)
Module Checkstyle.

Record Message : Type := mkMessage {
  line : Z;
  column : Z;
  severity : JsVal;
  message : string
}.

Record Result : Type := mkResult {
  filename : string;
  messages : list Message
}.

End Checkstyle.

(** An entry of a result list is anything with a [messages] array; both
    result shapes qualify. *)
Class HasMessages (R : Type) : Type := {
  entry : Type;
  messages_of : R -> list entry
}.

#[export] Instance Stylelint_HasMessages : HasMessages Stylelint.Result :=
  {| entry := Stylelint.Message; messages_of := Stylelint.messages |}.

#[export] Instance Checkstyle_HasMessages : HasMessages Checkstyle.Result :=
  {| entry := Checkstyle.Message; messages_of := Checkstyle.messages |}.

(** Name of this plugin for reporting purposes. *)
Definition pluginName : string := "gulp-stylelint-checkstyle".

(** ** Checkstyle reporter: the adapters (src/index.js) *)

Definition from_stylelint (message : Stylelint.Message) : bool :=
  String.eqb (Stylelint.plugin message) "stylelint".

Definition stylelintToCheckstyleMessageAdapter
    (message : Stylelint.Message) : Checkstyle.Message :=
  {| Checkstyle.line := Stylelint.line message;
     Checkstyle.column := Stylelint.column message;
     Checkstyle.severity := Stylelint.severity message;
     Checkstyle.message := Stylelint.text message |}.

Definition stylelintToCheckstyleMessageListAdapter
    (messageList : list Stylelint.Message) : list Checkstyle.Message :=
  map stylelintToCheckstyleMessageAdapter (filter from_stylelint messageList).

Definition stylelineToCheckstyleResultAdapter
    (result : Stylelint.Result) : Checkstyle.Result :=
  {| Checkstyle.filename := Stylelint.from result;
     Checkstyle.messages :=
       stylelintToCheckstyleMessageListAdapter (Stylelint.messages result) |}.

Definition has_messages (result : Stylelint.Result) : bool :=
  Nat.ltb 0 (length (Stylelint.messages result)).

Definition stylelintToCheckstyleResultListAdapter
    (resultList : list Stylelint.Result) : list Checkstyle.Result :=
  map stylelineToCheckstyleResultAdapter (filter has_messages resultList).

(** ** The earlier revision of the adapters *)

Module Legacy.

(** Severity type mapping between Stylelint and Checkstyle. *)
Definition severityTypeMapping : ObjectLiteral :=
  [ ("1", JStr "warning"); ("2", JStr "error") ].

Definition stylelintToCheckstyleMessageAdapter
    (message : Stylelint.Message) : Checkstyle.Message :=
  {| Checkstyle.line := Stylelint.line message;
     Checkstyle.column := Stylelint.column message;
     Checkstyle.severity :=
       get_property severityTypeMapping (Stylelint.severity message);
     Checkstyle.message := Stylelint.text message |}.

Definition stylelintToCheckstyleMessageListAdapter
    (messageList : list Stylelint.Message) : list Checkstyle.Message :=
  map stylelintToCheckstyleMessageAdapter (filter from_stylelint messageList).

Definition stylelineToCheckstyleResultAdapter
    (result : Stylelint.Result) : Checkstyle.Result :=
  {| Checkstyle.filename := Stylelint.from result;
     Checkstyle.messages :=
       stylelintToCheckstyleMessageListAdapter (Stylelint.messages result) |}.

Definition stylelintToCheckstyleResultListAdapter
    (resultList : list Stylelint.Result) : list Checkstyle.Result :=
  map stylelineToCheckstyleResultAdapter (filter has_messages resultList).

End Legacy.

(** ** Issue counter *)

(** [resultList.reduce((resultMemo, result) =>
      resultMemo + result.messages.length, 0)]. *)
Definition countIssuesInResultList {R : Type} `{HasMessages R}
    (resultList : list R) : nat :=
  fold_left
    (fun resultMemo result => resultMemo + length (messages_of result))
    resultList 0.

(** ** Errors, files and the host *)

Inductive JsError : Type :=
| Error (message : string)
| TypeError (message : string)
| PluginError (plugin : string) (message : string)
| PluginErrorOf (plugin : string) (cause : JsError).

(** A vinyl file: its contents are absent, a buffer or a stream. *)
Inductive Contents : Type :=
| CNull
| CBuffer (data : string)
| CStream.

Record File : Type := mkFile {
  path : string;
  contents : Contents
}.

Definition isNull (file : File) : bool :=
  match contents file with CNull => true | _ => false end.

Definition isStream (file : File) : bool :=
  match contents file with CStream => true | _ => false end.

(** [file.contents.toString()]; the plugin calls it on buffers only. *)
Definition contents_toString (file : File) : string :=
  match contents file with CBuffer data => data | _ => "" end.

Record Options : Type := mkOptions {
  stylelint : JsVal;
  output : JsVal;
  reportToConsole : JsVal;
  failAfterAllErrors : JsVal
}.

(** The object [{}]. *)
Definition no_options : Options :=
  {| stylelint := JUndefined; output := JUndefined;
     reportToConsole := JUndefined; failAfterAllErrors := JUndefined |}.

(** [gulpUtil.colors]. *)
Record Colors : Type := mkColors {
  gray : string -> string;
  red : string -> string;
  yellow : string -> string;
  underline : string -> string
}.

(** The collaborators the plugin imports: [path], [checkstyle-formatter],
    the stylelint processor (its messages for a source and a file name, or
    its failure), [mkdirp], [fs.writeFile], and whether the stream has an
    ['error'] listener. *)
Record Host : Type := mkHost {
  path_resolve : string -> string -> string;
  path_dirname : string -> string;
  checkstyleFormatter : list Checkstyle.Result -> string;
  lint : JsVal -> string -> string -> JsError + list Stylelint.Message;
  mkdirp : string -> option JsError;
  writeFile : string -> string -> option JsError;
  error_listener : bool
}.

(** ** Promises and the job queue *)

Inductive Value : Type :=
| VUndefined
| VString (s : string)
| VResult (r : Stylelint.Result)
| VCheckstyle (cs : list Checkstyle.Result)
| VArray (vs : list Value)
| VPromise (p : nat).

Definition Settled : Type := (Value + JsError)%type.

(** The functions that the plugin passes to [then] and [catch], and the
    resolving functions promises create for themselves. *)
Inductive Handler : Type :=
| H_provideResultsToReporters
| H_stylelintToCheckstyleResultListAdapter
| H_checkstyleFormatter
| H_outputWriter
| H_writeFile (xmlString : string)
| H_done
| H_onError
| H_resolve (p : nat)
| H_reject (p : nat)
| H_allElement (all index : nat).

Record Reaction : Type := mkReaction {
  on_fulfilled : option Handler;
  on_rejected : option Handler;
  derived : nat
}.

Inductive PromiseState : Type :=
| Pending (reactions : list Reaction)
| Fulfilled (v : Value)
| Rejected (e : JsError).

Inductive Job : Type :=
| ReactionJob (r : Reaction) (s : Settled)
| ResolveThenableJob (p thenable : nat).

(** What an observer of the run sees, in order. *)
Inductive Event : Type :=
| Log (line : string)
| Process (css from : string)
| Mkdirp (dir : string)
| WriteFile (file data : string)
| Callback (err : option JsError) (file : option File)
| EmitError (e : JsError)
| FlushDone.

Record Machine : Type := mkMachine {
  cwd : string;
  heap : list PromiseState;
  slots : list (nat * list (option Value));
  microtasks : list Job;
  io_queue : list (nat * Settled);
  promiseList : list nat;
  trace : list Event
}.

Definition set_heap (h : list PromiseState) (m : Machine) : Machine :=
  mkMachine (cwd m) h (slots m) (microtasks m) (io_queue m)
            (promiseList m) (trace m).
Definition set_slots (s : list (nat * list (option Value))) (m : Machine)
  : Machine :=
  mkMachine (cwd m) (heap m) s (microtasks m) (io_queue m)
            (promiseList m) (trace m).
Definition set_microtasks (q : list Job) (m : Machine) : Machine :=
  mkMachine (cwd m) (heap m) (slots m) q (io_queue m)
            (promiseList m) (trace m).
Definition set_io_queue (q : list (nat * Settled)) (m : Machine) : Machine :=
  mkMachine (cwd m) (heap m) (slots m) (microtasks m) q
            (promiseList m) (trace m).
Definition set_promiseList (l : list nat) (m : Machine) : Machine :=
  mkMachine (cwd m) (heap m) (slots m) (microtasks m) (io_queue m)
            l (trace m).
Definition set_trace (t : list Event) (m : Machine) : Machine :=
  mkMachine (cwd m) (heap m) (slots m) (microtasks m) (io_queue m)
            (promiseList m) t.

(** A fresh process in directory [d]. *)
Definition boot (d : string) : Machine := mkMachine d [] [] [] [] [] [].

(** Synchronous code either completes normally or throws. *)
Inductive Completion (A : Type) : Type :=
| Normal (a : A)
| Throw (e : JsError).
Arguments Normal {A} a.
Arguments Throw {A} e.

Definition M (A : Type) : Type := Machine -> Completion A * Machine.

Definition ret {A : Type} (a : A) : M A := fun m => (Normal a, m).

Definition throw {A : Type} (e : JsError) : M A := fun m => (Throw e, m).

Definition bind {A B : Type} (c : M A) (k : A -> M B) : M B :=
  fun m =>
    match c m with
    | (Normal a, m') => k a m'
    | (Throw e, m') => (Throw e, m')
    end.

Notation "x <- c ;; k" := (bind c (fun x => k))
  (at level 61, c at next level, right associativity).
Notation "c ;; k" := (bind c (fun _ => k))
  (at level 61, right associativity).

(** [try { c } catch (e) { handler(e) }]. *)
Definition try_catch {A : Type} (c : M A) (handler : JsError -> M A) : M A :=
  fun m =>
    match c m with
    | (Normal a, m') => (Normal a, m')
    | (Throw e, m') => handler e m'
    end.

Definition get {A : Type} (f : Machine -> A) : M A := fun m => (Normal (f m), m).

Definition modify (f : Machine -> Machine) : M unit :=
  fun m => (Normal tt, f m).

Definition emit_event (e : Event) : M unit :=
  modify (fun m => set_trace (trace m ++ [e]) m).

(** [xs.map(f)], [f] running for its effects too; a throw ends the loop. *)
Fixpoint array_map {A B : Type} (f : A -> M B) (xs : list A) : M (list B) :=
  match xs with
  | [] => ret []
  | x :: rest =>
      y <- f x ;;
      ys <- array_map f rest ;;
      ret (y :: ys)
  end.

Fixpoint for_each {A : Type} (f : A -> M unit) (xs : list A) : M unit :=
  match xs with
  | [] => ret tt
  | x :: rest => f x ;; for_each f rest
  end.

Fixpoint replace_nth {A : Type} (n : nat) (a : A) (l : list A) : list A :=
  match l, n with
  | [], _ => []
  | _ :: rest, O => a :: rest
  | x :: rest, S k => x :: replace_nth k a rest
  end.

Definition new_promise (s : PromiseState) : M nat :=
  fun m => (Normal (length (heap m)), set_heap (heap m ++ [s]) m).

Definition promise_state (p : nat) : M PromiseState :=
  get (fun m => nth p (heap m) (Pending [])).

Definition set_promise (p : nat) (s : PromiseState) : M unit :=
  modify (fun m => set_heap (replace_nth p s (heap m)) m).

Definition enqueue (j : Job) : M unit :=
  modify (fun m => set_microtasks (microtasks m ++ [j]) m).

(** Fulfil or reject a pending promise and schedule its reactions; a
    promise that is settled already stays as it is. *)
Definition settle (p : nat) (s : Settled) : M unit :=
  st <- promise_state p ;;
  match st with
  | Pending reactions =>
      set_promise p (match s with inl v => Fulfilled v | inr e => Rejected e end) ;;
      for_each (fun r => enqueue (ReactionJob r s)) reactions
  | _ => ret tt
  end.

(** The resolve function of [p]: a promise is adopted in a later job. *)
Definition resolve (p : nat) (v : Value) : M unit :=
  match v with
  | VPromise q => enqueue (ResolveThenableJob p q)
  | _ => settle p (inl v)
  end.

(** [p.then(onFulfilled, onRejected)]. *)
Definition then_ (p : nat) (onFulfilled onRejected : option Handler) : M nat :=
  d <- new_promise (Pending []) ;;
  let r := mkReaction onFulfilled onRejected d in
  st <- promise_state p ;;
  match st with
  | Pending reactions => set_promise p (Pending (reactions ++ [r]))
  | Fulfilled v => enqueue (ReactionJob r (inl v))
  | Rejected e => enqueue (ReactionJob r (inr e))
  end ;;
  ret d.

(** [Promise.resolve(v)]. *)
Definition Promise_resolve (v : Value) : M nat :=
  match v with
  | VPromise q => ret q
  | _ => new_promise (Fulfilled v)
  end.

Fixpoint indexed {A : Type} (i : nat) (xs : list A) : list (nat * A) :=
  match xs with
  | [] => []
  | x :: rest => (i, x) :: indexed (S i) rest
  end.

(** [Promise.all(values)]. *)
Definition Promise_all (values : list Value) : M nat :=
  all <- new_promise (Pending []) ;;
  match values with
  | [] => settle all (inl (VArray [])) ;; ret all
  | _ =>
      modify (fun m =>
        set_slots ((all, map (fun _ => None) values) :: slots m) m) ;;
      for_each
        (fun iv =>
           p <- Promise_resolve (snd iv) ;;
           then_ p (Some (H_allElement all (fst iv))) (Some (H_reject all)) ;;
           ret tt)
        (indexed 0 values) ;;
      ret all
  end.

Fixpoint find_slots (all : nat) (s : list (nat * list (option Value)))
  : list (option Value) :=
  match s with
  | [] => []
  | (k, vs) :: rest => if Nat.eqb k all then vs else find_slots all rest
  end.

Fixpoint all_filled (vs : list (option Value)) : option (list Value) :=
  match vs with
  | [] => Some []
  | None :: _ => None
  | Some v :: rest =>
      match all_filled rest with
      | Some l => Some (v :: l)
      | None => None
      end
  end.

(** The resolve-element function that [Promise.all] attaches to entry
    [index]. *)
Definition all_element (all index : nat) (v : Value) : M Value :=
  vs <- get (fun m => replace_nth index (Some v) (find_slots all (slots m))) ;;
  modify (fun m => set_slots ((all, vs) :: slots m) m) ;;
  match all_filled vs with
  | Some l => settle all (inl (VArray l))
  | None => ret tt
  end ;;
  ret VUndefined.

(** A promise that the environment settles later, after the jobs that
    are queued by then. *)
Definition external_promise (outcome : Settled) : M nat :=
  p <- new_promise (Pending []) ;;
  modify (fun m => set_io_queue (io_queue m ++ [(p, outcome)]) m) ;;
  ret p.

Fixpoint as_results (vs : list Value) : option (list Stylelint.Result) :=
  match vs with
  | [] => Some []
  | VResult r :: rest =>
      match as_results rest with
      | Some l => Some (r :: l)
      | None => None
      end
  | _ :: _ => None
  end.

(** ** The plugin *)

(** What the functions nested in [gulpStylelintCheckstyle] close over.  The
    [promiseList] they share is the machine's. *)
Record Closure : Type := mkClosure {
  options : Options;
  outputFile : string;
  outputDir : string
}.

Section Plugin.

Variable colors : Colors.
Variable host : Host.

Definition gulpUtil_log (line : string) : M unit := emit_event (Log line).

(** *** Console reporter *)

Definition consoleMessageReporter (message : Stylelint.Message) : M unit :=
  let errorCoords :=
    gray colors (number_to_string (Stylelint.line message) ++ ":" ++
                 number_to_string (Stylelint.column message)) in
  let errorNotice :=
    if strict_eq_string (Stylelint.severity message) "error"
    then red colors "error"
    else yellow colors "warning" in
  gulpUtil_log (errorCoords ++ " " ++ errorNotice ++ " " ++
                Stylelint.text message).

Definition consoleResultReporter (result : Stylelint.Result) : M unit :=
  gulpUtil_log (underline colors (Stylelint.from result)) ;;
  for_each consoleMessageReporter
           (filter from_stylelint (Stylelint.messages result)).

Definition consoleResultListReporter (resultList : list Stylelint.Result)
  : M (list Stylelint.Result) :=
  for_each consoleResultReporter (filter has_messages resultList) ;;
  ret resultList.

(** *** Fail-after-all-errors reporter *)

Definition failAfterAllErrorsReporter {R : Type} `{HasMessages R}
    (resultList : list R) : M unit :=
  let errorCount := countIssuesInResultList resultList in
  if Nat.ltb 0 errorCount then
    let errorNotice :=
      if Nat.eqb errorCount 1 then "issue has" else "issues have" in
    throw (Error (number_to_string (Z.of_nat errorCount) ++ " linting " ++
                  errorNotice ++ " been found."))
  else ret tt.

(** *** The stream *)

(** [path.resolve(base, v)]; [path] refuses what is not a string. *)
Definition path_resolve_js (base : string) (v : JsVal) : M string :=
  match v with
  | JStr s => ret (path_resolve host base s)
  | _ => throw (TypeError "Path must be a string")
  end.

(** The body of [gulpStylelintCheckstyle] up to the nested functions;
    [None] is a call without argument.  The machine runs one stream, so
    [const promiseList = []] empties its list.  The postcss processor is
    [lint host] applied to [options.stylelint]. *)
Definition gulpStylelintCheckstyle (arg : option Options) : M Closure :=
  let options := match arg with Some o => o | None => no_options end in
  modify (set_promiseList []) ;;
  cwd <- get cwd ;;
  outputFile <- path_resolve_js cwd (js_or (output options)
                                           (JStr "checkstyle.xml")) ;;
  let outputDir := path_dirname host outputFile in
  ret (mkClosure options outputFile outputDir).

Variable self : Closure.

Definition settled_of (failure : option JsError) : Settled :=
  match failure with
  | Some e => inr e
  | None => inl VUndefined
  end.

Definition outputWriter (xmlString : string) : M Value :=
  emit_event (Mkdirp (outputDir self)) ;;
  made <- external_promise (settled_of (mkdirp host (outputDir self))) ;;
  written <- then_ made (Some (H_writeFile xmlString)) None ;;
  ret (VPromise written).

(** [() => fsp.writeFile(outputFile, xmlString)]. *)
Definition writeFile_callback (xmlString : string) : M Value :=
  emit_event (WriteFile (outputFile self) xmlString) ;;
  p <- external_promise
         (settled_of (writeFile host (outputFile self) xmlString)) ;;
  ret (VPromise p).

Definition checkstyleReporter (results : list Stylelint.Result) : M Value :=
  p0 <- Promise_resolve (VArray (map VResult results)) ;;
  p1 <- then_ p0 (Some H_stylelintToCheckstyleResultListAdapter) None ;;
  p2 <- then_ p1 (Some H_checkstyleFormatter) None ;;
  p3 <- then_ p2 (Some H_outputWriter) None ;;
  ret (VPromise p3).

(** [postcssProcessor.process(css, {from})]: the result carries the
    options it was started with. *)
Definition postcssProcessor_process (css from : string) : M nat :=
  emit_event (Process css from) ;;
  external_promise
    match lint host (stylelint (options self)) css from with
    | inl e => inr e
    | inr found => inl (VResult (Stylelint.mkResult from found))
    end.

(** [this.emit('error', e)]: without a listener the emitter throws. *)
Definition emit_error (e : JsError) : M unit :=
  if error_listener host then emit_event (EmitError e) else throw e.

(** The [done] callback that through2 hands to the transform function:
    called with a file it pushes the file on, called with an error it
    makes the stream emit ['error'] at once. *)
Definition transform_done (err : option JsError) (file : option File)
  : M unit :=
  emit_event (Callback err file) ;;
  match err with
  | Some e => emit_error e
  | None => ret tt
  end.

Definition onFile (file : File) : M unit :=
  if isNull file then transform_done None (Some file)
  else if isStream file then
    transform_done
      (Some (PluginError pluginName "Streaming not supported")) None
  else
    let fileContents := contents_toString file in
    promise <- postcssProcessor_process fileContents (path file) ;;
    modify (fun m => set_promiseList (promiseList m ++ [promise]) m) ;;
    transform_done None (Some file).

Definition provideResultsToReporters (results : list Stylelint.Result)
  : M Value :=
  let reporters :=
    ([checkstyleReporter]
     ++ (if truthy (reportToConsole (options self))
         then [fun results =>
                 same <- consoleResultListReporter results ;;
                 ret (VArray (map VResult same))]
         else [])
     ++ (if truthy (failAfterAllErrors (options self))
         then [fun results =>
                 failAfterAllErrorsReporter results ;; ret VUndefined]
         else []))%list in
  values <- array_map (fun reporter => reporter results) reporters ;;
  all <- Promise_all values ;;
  ret (VPromise all).

(** The [done] callback of the flush function. *)
Definition flush_done : M unit := emit_event FlushDone.

Definition onError (error : JsError) : M Value :=
  try_catch (emit_error (PluginErrorOf pluginName error))
            (fun _ => ret tt) ;;
  flush_done ;;
  ret VUndefined.

Definition onStreamEnd : M unit :=
  pending <- get promiseList ;;
  linted <- Promise_all (map VPromise pending) ;;
  reported <- then_ linted (Some H_provideResultsToReporters) None ;;
  finished <- then_ reported (Some H_done) None ;;
  then_ finished None (Some H_onError) ;;
  ret tt.

(** Calling a handler with what its promise settled to. *)
Definition run_handler (h : Handler) (s : Settled) : M Value :=
  match h, s with
  | H_provideResultsToReporters, inl (VArray vs) =>
      match as_results vs with
      | Some results => provideResultsToReporters results
      | None => throw (TypeError "not a result list")
      end
  | H_stylelintToCheckstyleResultListAdapter, inl (VArray vs) =>
      match as_results vs with
      | Some results =>
          ret (VCheckstyle (stylelintToCheckstyleResultListAdapter results))
      | None => throw (TypeError "not a result list")
      end
  | H_checkstyleFormatter, inl (VCheckstyle cs) =>
      ret (VString (checkstyleFormatter host cs))
  | H_outputWriter, inl (VString xmlString) => outputWriter xmlString
  | H_writeFile xmlString, inl _ => writeFile_callback xmlString
  | H_done, inl _ => flush_done ;; ret VUndefined
  | H_onError, inr error => onError error
  | H_resolve p, inl v => resolve p v ;; ret VUndefined
  | H_reject p, inr e => settle p (inr e) ;; ret VUndefined
  | H_allElement all index, inl v => all_element all index v
  | _, _ => throw (TypeError "handler called on a value of another shape")
  end.

Definition run_job (j : Job) : M unit :=
  match j with
  | ReactionJob r s =>
      let handler :=
        match s with
        | inl _ => on_fulfilled r
        | inr _ => on_rejected r
        end in
      match handler with
      | None => settle (derived r) s
      | Some h =>
          try_catch (v <- run_handler h s ;; resolve (derived r) v)
                    (fun e => settle (derived r) (inr e))
      end
  | ResolveThenableJob p thenable =>
      then_ thenable (Some (H_resolve p)) (Some (H_reject p)) ;; ret tt
  end.

(** The event loop: queued jobs first, then the next completion the
    environment has ready.  Completions arrive in the order of the
    requests. *)
Fixpoint run (fuel : nat) (m : Machine) : Machine :=
  match fuel with
  | O => m
  | S n =>
      match microtasks m with
      | j :: rest => run n (snd (run_job j (set_microtasks rest m)))
      | [] =>
          match io_queue m with
          | (p, s) :: rest => run n (snd (settle p s (set_io_queue rest m)))
          | [] => m
          end
      end
  end.

Definition idle (m : Machine) : bool :=
  match microtasks m, io_queue m with
  | [], [] => true
  | _, _ => false
  end.

End Plugin.

(** *** The stream in a pipe *)

Definition is_refusal (e : Event) : bool :=
  match e with
  | Callback (Some _) _ => true
  | _ => false
  end.

(** Whether the stream has answered a file with an error.  It emitted
    ['error'] then, and a source that pipes into the stream has unpiped
    it. *)
Definition unpiped (m : Machine) : bool := existsb is_refusal (trace m).

(** The source writes its files into the stream, one after the other, for
    as long as it is piped into it. *)
Fixpoint write_files (host : Host) (self : Closure) (files : list File)
  : M unit :=
  match files with
  | [] => ret tt
  | file :: rest =>
      gone <- get unpiped ;;
      if gone then ret tt
      else onFile host self file ;; write_files host self rest
  end.

(** A source that is through ends the stream it still pipes into, and the
    stream flushes. *)
Definition end_of_files : M unit :=
  gone <- get unpiped ;;
  if gone then ret tt else onStreamEnd.

(** [source.pipe(through.obj(onFile, onStreamEnd))] for a source that
    holds [files]. *)
Definition pipe (host : Host) (arg : option Options) (files : list File)
  : M Closure :=
  self <- gulpStylelintCheckstyle host arg ;;
  write_files host self files ;;
  end_of_files ;;
  ret self.

(** ** Vocabulary of the properties *)

(** [kept] is what remains of [all] when exactly the messages that do not
    come from stylelint are struck out. *)
Inductive stylelint_part
  : list Stylelint.Message -> list Stylelint.Message -> Prop :=
| part_nil : stylelint_part [] []
| part_keep (m : Stylelint.Message) (all kept : list Stylelint.Message) :
    Stylelint.plugin m = "stylelint" ->
    stylelint_part all kept ->
    stylelint_part (m :: all) (m :: kept)
| part_drop (m : Stylelint.Message) (all kept : list Stylelint.Message) :
    Stylelint.plugin m <> "stylelint" ->
    stylelint_part all kept ->
    stylelint_part (m :: all) kept.

(** A Checkstyle message that carries the position, the severity and the
    text of a Stylelint message. *)
Definition carries (m : Stylelint.Message) (c : Checkstyle.Message) : Prop :=
  Checkstyle.line c = Stylelint.line m /\
  Checkstyle.column c = Stylelint.column m /\
  Checkstyle.severity c = Stylelint.severity m /\
  Checkstyle.message c = Stylelint.text m.

Definition with_severity (s : JsVal) (m : Stylelint.Message)
  : Stylelint.Message :=
  Stylelint.mkMessage (Stylelint.line m) (Stylelint.column m) s
                      (Stylelint.text m) (Stylelint.plugin m).

Definition with_output (v : JsVal) (o : Options) : Options :=
  mkOptions (stylelint o) v (reportToConsole o) (failAfterAllErrors o).

(** ** Sample data *)

Module Sample.

Definition no_colors : Colors :=
  mkColors (fun s => s) (fun s => s) (fun s => s) (fun s => s).

Definition empty_block : Stylelint.Message :=
  Stylelint.mkMessage 3 7 (JStr "warning") "Unexpected empty block"
                      "stylelint".

Definition bad_color : Stylelint.Message :=
  Stylelint.mkMessage 5 10 (JStr "error") "Unexpected invalid hex color"
                      "stylelint".

Definition prefixed : Stylelint.Message :=
  Stylelint.mkMessage 1 1 (JStr "warning") "Replace color-adjust"
                      "autoprefixer".

Definition only_foreign : Stylelint.Result :=
  Stylelint.mkResult "b.css" [prefixed].

Definition mixed : Stylelint.Result :=
  Stylelint.mkResult "a.css" [empty_block; prefixed; bad_color].

Definition clean : Stylelint.Result := Stylelint.mkResult "c.css" [].

(** A host whose linter finds [empty_block] in every file and whose
    file system never fails; paths are joined with a slash. *)
Definition quiet_host : Host :=
  mkHost (fun base p => base ++ "/" ++ p)
         (fun _ => "/work")
         (fun cs =>
            "<checkstyle files=" ++ number_to_string (Z.of_nat (length cs))
            ++ "/>")
         (fun _ _ _ => inr [empty_block])
         (fun _ => None)
         (fun _ _ => None)
         true.

Definition a_css : File := mkFile "a.css" (CBuffer "a {}").
Definition piped : File := mkFile "s.css" CStream.
Definition hollow : File := mkFile "n.css" CNull.

Definition console_and_fail : Options :=
  mkOptions JUndefined JUndefined (JBool true) (JBool true).

Definition console_only : Options :=
  mkOptions JUndefined JUndefined (JBool true) JUndefined.

Definition here : Closure :=
  mkClosure no_options "/work/checkstyle.xml" "/work".

Definition there : Closure :=
  mkClosure console_and_fail "/work/checkstyle.xml" "/work".

End Sample.

(** ** Vocabulary of the further properties *)

Definition is_buffer (file : File) : bool :=
  match contents file with CBuffer _ => true | _ => false end.

(** The files ahead of the first stream. *)
Fixpoint before_stream (files : list File) : list File :=
  match files with
  | [] => []
  | file :: rest =>
      if isStream file then [] else file :: before_stream rest
  end.

(** The files handed on through the callback, in order. *)
Fixpoint passed_on (seen : list Event) : list File :=
  match seen with
  | [] => []
  | Callback None (Some file) :: rest => file :: passed_on rest
  | _ :: rest => passed_on rest
  end.

(** The sources given to the processor, each with its file name, in
    order. *)
Fixpoint processed (seen : list Event) : list (string * string) :=
  match seen with
  | [] => []
  | Process css from :: rest => (css, from) :: processed rest
  | _ :: rest => processed rest
  end.

(** The errors answered through the callback, in order. *)
Fixpoint refused (seen : list Event) : list JsError :=
  match seen with
  | [] => []
  | Callback (Some e) _ :: rest => e :: refused rest
  | _ :: rest => refused rest
  end.

Definition has_stylelint_message (result : Stylelint.Result) : Prop :=
  exists m,
    In m (Stylelint.messages result) /\ Stylelint.plugin m = "stylelint".

Definition same_but_severity (old new : Checkstyle.Message) : Prop :=
  Checkstyle.line old = Checkstyle.line new /\
  Checkstyle.column old = Checkstyle.column new /\
  Checkstyle.message old = Checkstyle.message new.

(** What the catch handler of [onStreamEnd] lets an observer see. *)
Definition failure_events (host : Host) (e : JsError) : list Event :=
  ((if error_listener host
    then [EmitError (PluginErrorOf pluginName e)] else [])
   ++ [FlushDone])%list.

(** The error of the fail-after-all-errors reporter for [count] issues. *)
Definition issues_found (count : nat) : JsError :=
  Error (number_to_string (Z.of_nat count) ++ " linting " ++
         (if Nat.eqb count 1 then "issue has" else "issues have") ++
         " been found.").

(** What the console reporter logs for [results]. *)
Definition console_events (colors : Colors)
    (results : list Stylelint.Result) : list Event :=
  trace (snd (consoleResultListReporter colors results (boot ""))).

(** What an observer sees from the moment the lint results are there. *)
Definition reporting_events (colors : Colors) (host : Host) (self : Closure)
    (results : list Stylelint.Result) : list Event :=
  let xml :=
    checkstyleFormatter host (stylelintToCheckstyleResultListAdapter results) in
  let count := countIssuesInResultList results in
  ((if truthy (reportToConsole (options self))
    then console_events colors results else [])
   ++
   if truthy (failAfterAllErrors (options self)) && Nat.ltb 0 count
   then
     failure_events host (issues_found count)
     ++ Mkdirp (outputDir self)
        :: match mkdirp host (outputDir self) with
           | Some _ => []
           | None => [WriteFile (outputFile self) xml]
           end
   else
     Mkdirp (outputDir self)
     :: match mkdirp host (outputDir self) with
        | Some e => failure_events host e
        | None =>
            WriteFile (outputFile self) xml
            :: match writeFile host (outputFile self) xml with
               | Some e => failure_events host e
               | None => [FlushDone]
               end
        end)%list.

(** What the lint promise of [file] is settled with. *)
Definition lint_outcome (host : Host) (self : Closure) (file : File)
  : Settled :=
  match lint host (stylelint (options self)) (contents_toString file)
             (path file) with
  | inl e => inr e
  | inr found => inl (VResult (Stylelint.mkResult (path file) found))
  end.

(** The linter succeeds on [file] and [result] is what postcss resolves
    to. *)
Definition lints_to (host : Host) (self : Closure) (file : File)
    (result : Stylelint.Result) : Prop :=
  lint host (stylelint (options self)) (contents_toString file) (path file)
  = inr (Stylelint.messages result)
  /\ Stylelint.from result = path file.

(** The reaction [Promise.all] attaches to its entry [index]. *)
Definition all_reaction (all index target : nat) : Reaction :=
  mkReaction (Some (H_allElement all index)) (Some (H_reject all)) target.

Definition settled_state (s : Settled) : PromiseState :=
  match s with inl v => Fulfilled v | inr e => Rejected e end.

(** The heap when the stream has ended and [k] lint promises are still
    pending: the lint promises, the promise of [Promise.all], the promises
    derived for its entries, and the chain of [onStreamEnd]. *)
Definition waiting_heap (k : nat) : list PromiseState :=
  (map (fun i => Pending [all_reaction k i (k + 1 + i)]) (seq 0 k)
   ++ Pending [mkReaction (Some H_provideResultsToReporters) None (2 * k + 1)]
   :: repeat (Pending []) k
   ++ [Pending [mkReaction (Some H_done) None (2 * k + 2)];
       Pending [mkReaction None (Some H_onError) (2 * k + 3)];
       Pending []])%list.

(** The events of the reporting: a console line, the directory made, the
    report written, the stream flushed. *)
Definition reports (e : Event) : bool :=
  match e with
  | Log _ | Mkdirp _ | WriteFile _ _ | FlushDone => true
  | _ => false
  end.

(** A promise nobody waits for. *)
Definition unobserved (s : PromiseState) : Prop :=
  match s with
  | Pending (_ :: _) => False
  | _ => True
  end.

(** A machine with no job queued and no reaction registered. *)
Definition calm (m : Machine) : Prop :=
  microtasks m = [] /\ Forall unobserved (heap m).









(** ** The functions on the sample data *)

Example adapted_sample :
  stylelintToCheckstyleResultListAdapter
    [Sample.mixed; Sample.clean; Sample.only_foreign]
  = [ Checkstyle.mkResult "a.css"
        [ Checkstyle.mkMessage 3 7 (JStr "warning") "Unexpected empty block";
          Checkstyle.mkMessage 5 10 (JStr "error")
                               "Unexpected invalid hex color" ];
      Checkstyle.mkResult "b.css" [] ].
Proof. reflexivity. Qed.

Example counted_sample :
  countIssuesInResultList [Sample.mixed; Sample.clean; Sample.only_foreign] = 4
  /\ countIssuesInResultList
       (stylelintToCheckstyleResultListAdapter
          [Sample.mixed; Sample.clean; Sample.only_foreign]) = 2.
Proof. split; reflexivity. Qed.

Example failed_sample :
  fst (failAfterAllErrorsReporter [Sample.mixed] (boot "/work"))
  = Throw (Error "3 linting issues have been found.")
  /\ fst (failAfterAllErrorsReporter [Sample.only_foreign] (boot "/work"))
     = Throw (Error "1 linting issue has been found.")
  /\ fst (failAfterAllErrorsReporter [Sample.clean] (boot "/work"))
     = Normal tt.
Proof. repeat split; reflexivity. Qed.

Example console_sample :
  trace (snd (consoleResultListReporter Sample.no_colors
                [Sample.mixed; Sample.clean; Sample.only_foreign]
                (boot "/work")))
  = [ Log "a.css";
      Log "3:7 warning Unexpected empty block";
      Log "5:10 error Unexpected invalid hex color";
      Log "b.css" ].
Proof. reflexivity. Qed.

(** ** Properties of the adapters *)

Lemma filter_has_messages_In (resultList : list Stylelint.Result)
    (result : Stylelint.Result) :
  In result resultList ->
  Stylelint.messages result <> [] ->
  In result (filter has_messages resultList).
Proof.
  intros Hin Hne. apply filter_In. split; [exact Hin|].
  unfold has_messages. destruct (Stylelint.messages result) as [|x xs].
  - congruence.
  - reflexivity.
Qed.

Lemma filter_from_stylelint_none (messageList : list Stylelint.Message) :
  (forall m, In m messageList -> Stylelint.plugin m <> "stylelint") ->
  filter from_stylelint messageList = [].
Proof.
  induction messageList as [|m rest IH]; intros Hall; [reflexivity|].
  simpl. unfold from_stylelint at 1.
  destruct (String.eqb_spec (Stylelint.plugin m) "stylelint") as [Heq|Hne].
  - exfalso. apply (Hall m); [left; reflexivity | exact Heq].
  - apply IH. intros m' Hin. apply Hall. right. exact Hin.
Qed.

(** C1.  The result-list adapter filters on the messages as postcss
    delivered them: a result of the list that has messages, none of them
    from stylelint, shows up in the adapted list under its file name with
    no messages at all.  This holds in both revisions of the adapter. *)
Theorem foreign_only_result_is_kept_empty
    (resultList : list Stylelint.Result) (result : Stylelint.Result) :
  In result resultList ->
  Stylelint.messages result <> [] ->
  (forall m, In m (Stylelint.messages result) ->
             Stylelint.plugin m <> "stylelint") ->
  In (Checkstyle.mkResult (Stylelint.from result) [])
     (stylelintToCheckstyleResultListAdapter resultList)
  /\ In (Checkstyle.mkResult (Stylelint.from result) [])
        (Legacy.stylelintToCheckstyleResultListAdapter resultList).
Proof.
  intros Hin Hne Hforeign.
  pose proof (filter_has_messages_In resultList result Hin Hne) as Hkept.
  pose proof (filter_from_stylelint_none _ Hforeign) as Hnone.
  split.
  - unfold stylelintToCheckstyleResultListAdapter.
    apply in_map_iff. exists result. split; [|exact Hkept].
    unfold stylelineToCheckstyleResultAdapter,
      stylelintToCheckstyleMessageListAdapter.
    rewrite Hnone. reflexivity.
  - unfold Legacy.stylelintToCheckstyleResultListAdapter.
    apply in_map_iff. exists result. split; [|exact Hkept].
    unfold Legacy.stylelineToCheckstyleResultAdapter,
      Legacy.stylelintToCheckstyleMessageListAdapter.
    rewrite Hnone. reflexivity.
Qed.

Lemma foreign_only_result_is_kept_empty_witness :
  Stylelint.messages Sample.only_foreign <> []
  /\ In (Checkstyle.mkResult "b.css" [])
        (stylelintToCheckstyleResultListAdapter
           [Sample.mixed; Sample.clean; Sample.only_foreign])
  /\ In (Checkstyle.mkResult "b.css" [])
        (Legacy.stylelintToCheckstyleResultListAdapter
           [Sample.mixed; Sample.clean; Sample.only_foreign]).
Proof.
  split; [simpl; discriminate|].
  apply (foreign_only_result_is_kept_empty
           [Sample.mixed; Sample.clean; Sample.only_foreign]
           Sample.only_foreign).
  - simpl. right. right. left. reflexivity.
  - simpl. discriminate.
  - simpl. intros m [Hm|[]]. subst m. simpl. discriminate.
Defined.

(** C2 as stated fails: on a message whose severity is the tag
    ['warning'] the table of the earlier revision has no entry, the
    adapted severity is [undefined], and the two revisions disagree. *)
Lemma table_lookup_loses_severity_tag :
  (Stylelint.severity Sample.empty_block = JStr "warning" \/
   Stylelint.severity Sample.empty_block = JStr "error")
  /\ Checkstyle.severity
       (Legacy.stylelintToCheckstyleMessageAdapter Sample.empty_block)
     = JUndefined
  /\ Legacy.stylelintToCheckstyleMessageAdapter Sample.empty_block
     <> stylelintToCheckstyleMessageAdapter Sample.empty_block.
Proof.
  split; [left; reflexivity|]. split; [reflexivity|].
  intros Heq. apply (f_equal Checkstyle.severity) in Heq.
  vm_compute in Heq. discriminate.
Qed.

(** C2, amended.  The table of the earlier revision is keyed by the
    severity codes 1 and 2.  On a message carrying code 1 (code 2) it
    yields what the later revision yields on the same message carrying the
    tag ['warning'] (['error']).  On a message that carries one of the two
    tags already, the revisions agree on line, column and text, and the
    earlier one leaves the severity [undefined]. *)
Theorem table_lookup_is_keyed_by_code
    (message : Stylelint.Message) (code : Z) (tag : string) :
  (code = 1%Z /\ tag = "warning") \/ (code = 2%Z /\ tag = "error") ->
  let old :=
    Legacy.stylelintToCheckstyleMessageAdapter
      (with_severity (JStr tag) message) in
  let new :=
    stylelintToCheckstyleMessageAdapter (with_severity (JStr tag) message) in
  Legacy.stylelintToCheckstyleMessageAdapter
    (with_severity (JNum code) message) = new /\
  Checkstyle.line old = Checkstyle.line new /\
  Checkstyle.column old = Checkstyle.column new /\
  Checkstyle.message old = Checkstyle.message new /\
  Checkstyle.severity new = JStr tag /\
  Checkstyle.severity old = JUndefined.
Proof.
  intros [[-> ->] | [-> ->]]; repeat split; reflexivity.
Qed.

Lemma table_lookup_is_keyed_by_code_witness :
  Legacy.stylelintToCheckstyleMessageAdapter
    (with_severity (JNum 2) Sample.bad_color)
  = stylelintToCheckstyleMessageAdapter Sample.bad_color
  /\ Checkstyle.severity
       (Legacy.stylelintToCheckstyleMessageAdapter Sample.bad_color)
     = JUndefined.
Proof.
  destruct (table_lookup_is_keyed_by_code Sample.bad_color 2 "error")
    as (Hcode & _ & _ & _ & _ & Htag).
  - right. split; reflexivity.
  - split; [exact Hcode | exact Htag].
Defined.

Lemma stylelint_part_filter (messageList : list Stylelint.Message) :
  stylelint_part messageList (filter from_stylelint messageList).
Proof.
  induction messageList as [|m rest IH]; simpl; [constructor|].
  unfold from_stylelint at 1.
  destruct (String.eqb_spec (Stylelint.plugin m) "stylelint") as [Heq|Hne].
  - apply part_keep; assumption.
  - apply part_drop; assumption.
Qed.

Lemma stylelint_part_unique (all kept kept' : list Stylelint.Message) :
  stylelint_part all kept -> stylelint_part all kept' -> kept = kept'.
Proof.
  intros H. revert kept'.
  induction H as [|m all kept Hm _ IH|m all kept Hm _ IH];
    intros kept' H'; inversion H'; subst;
    try contradiction; try reflexivity.
  - f_equal. apply IH. assumption.
  - apply IH. assumption.
Qed.

Lemma carries_adapter (m : Stylelint.Message) :
  carries m (stylelintToCheckstyleMessageAdapter m).
Proof. repeat split. Qed.

(** C4.  The message-list adapter returns the messages that come from
    stylelint, all of them and no others, in the order they had, each one
    reduced to line, column, severity and its text under the name
    [message]; the plugin tag is gone with the record type. *)
Theorem message_list_adapter_keeps_stylelint_part
    (messageList : list Stylelint.Message) :
  exists kept,
    stylelint_part messageList kept
    /\ (forall kept', stylelint_part messageList kept' -> kept' = kept)
    /\ Forall2 carries kept
               (stylelintToCheckstyleMessageListAdapter messageList).
Proof.
  exists (filter from_stylelint messageList).
  split; [apply stylelint_part_filter|]. split.
  - intros kept' H'.
    apply (stylelint_part_unique messageList);
      [exact H' | apply stylelint_part_filter].
  - unfold stylelintToCheckstyleMessageListAdapter.
    induction (filter from_stylelint messageList) as [|m rest IH]; simpl.
    + constructor.
    + constructor; [apply carries_adapter | exact IH].
Qed.

(** ** Properties of the issue counter *)

Section Counter.

Context {R : Type} `{HasMessages R}.

Lemma count_from (resultList : list R) (start : nat) :
  fold_left
    (fun resultMemo result => resultMemo + length (messages_of result))
    resultList start
  = start + countIssuesInResultList resultList.
Proof.
  unfold countIssuesInResultList. revert start.
  induction resultList as [|result rest IH]; intros start; simpl.
  - lia.
  - rewrite IH. rewrite (IH (length (messages_of result))). lia.
Qed.

Lemma count_cons (result : R) (rest : list R) :
  countIssuesInResultList (result :: rest)
  = length (messages_of result) + countIssuesInResultList rest.
Proof.
  unfold countIssuesInResultList at 1. simpl. apply count_from.
Qed.

Lemma count_sum (resultList : list R) :
  countIssuesInResultList resultList
  = list_sum (map (fun result => length (messages_of result)) resultList).
Proof.
  induction resultList as [|result rest IH]; [reflexivity|].
  rewrite count_cons, IH. reflexivity.
Qed.

(** C5.  The count of a concatenation is the sum of the counts; the
    empty list counts zero; a count is never negative. *)
Theorem count_is_additive (A B : list R) :
  countIssuesInResultList (A ++ B)
  = countIssuesInResultList A + countIssuesInResultList B
  /\ countIssuesInResultList (@nil R) = 0
  /\ (0 <= Z.of_nat (countIssuesInResultList A))%Z.
Proof.
  split; [|split; [reflexivity | lia]].
  unfold countIssuesInResultList at 1.
  rewrite fold_left_app. fold (countIssuesInResultList A).
  apply count_from.
Qed.

End Counter.

(** C8.  The counter reads nothing but the [messages] array of each entry
    and therefore serves the results of postcss and the adapted results
    alike: in both shapes the count is the sum of the lengths of the
    entries' message arrays, and so it is for every type of entry that
    offers such an array. *)
Theorem count_serves_both_shapes :
  (forall raw : list Stylelint.Result,
      countIssuesInResultList raw
      = list_sum (map (fun r => length (Stylelint.messages r)) raw))
  /\ (forall adapted : list Checkstyle.Result,
        countIssuesInResultList adapted
        = list_sum (map (fun r => length (Checkstyle.messages r)) adapted))
  /\ (forall (R : Type) (shape : HasMessages R) (entries : list R),
        countIssuesInResultList entries
        = list_sum (map (fun r => length (messages_of r)) entries)).
Proof.
  split; [|split].
  - intros raw. rewrite count_sum. reflexivity.
  - intros adapted. rewrite count_sum. reflexivity.
  - intros R shape entries. apply count_sum.
Qed.

(** ** Properties of the reporters *)

Lemma number_to_string_reads_back (z : Z) :
  option_map Z.of_int (NilZero.int_of_string (number_to_string z)) = Some z.
Proof.
  unfold number_to_string. rewrite NilZero.isi.
  - simpl. f_equal. apply DecimalZ.of_to.
  - destruct z as [|p|p]; simpl; try discriminate.
    intros Heq. injection Heq as Heq.
    exact (DecimalPos.Unsigned.to_uint_nonnil p Heq).
  - destruct z as [|p|p]; simpl; try discriminate.
    intros Heq. injection Heq as Heq.
    exact (DecimalPos.Unsigned.to_uint_nonnil p Heq).
Qed.

(** C3.  The fail-after-all-errors reporter throws exactly when the count
    of issues is positive.  With no issue it returns and leaves the
    machine as it was; with one issue it throws
    ['1 linting issue has been found.']; with two or more it throws
    ['<count> linting issues have been found.'], the count in decimal,
    from which the count can be read back. *)
Theorem fail_policy_outcome {R : Type} `{HasMessages R}
    (resultList : list R) (m : Machine) :
  let count := countIssuesInResultList resultList in
  ((exists e, failAfterAllErrorsReporter resultList m = (Throw e, m))
   <-> 0 < count)
  /\ failAfterAllErrorsReporter resultList m
     = match count with
       | 0 => (Normal tt, m)
       | 1 => (Throw (Error "1 linting issue has been found."), m)
       | _ => (Throw (Error (number_to_string (Z.of_nat count) ++
                             " linting issues have been found.")), m)
       end
  /\ option_map Z.of_int
       (NilZero.int_of_string (number_to_string (Z.of_nat count)))
     = Some (Z.of_nat count).
Proof.
  intros count. unfold failAfterAllErrorsReporter. fold count.
  split; [|split].
  - destruct count as [|k]; cbn [Nat.ltb Nat.leb]; split.
    + intros [e He]. discriminate He.
    + lia.
    + intros _. lia.
    + intros _. eexists. reflexivity.
  - destruct count as [|[|k]]; reflexivity.
  - apply number_to_string_reads_back.
Qed.

Lemma trace_set_trace (t : list Event) (m : Machine) :
  trace (set_trace t m) = t.
Proof. reflexivity. Qed.

Lemma set_trace_twice (t t' : list Event) (m : Machine) :
  set_trace t (set_trace t' m) = set_trace t m.
Proof. reflexivity. Qed.

Lemma set_trace_same (m : Machine) : set_trace (trace m) m = m.
Proof. destruct m; reflexivity. Qed.

Lemma set_trace_nothing_new (m : Machine) : set_trace (trace m ++ []) m = m.
Proof. rewrite app_nil_r. apply set_trace_same. Qed.

Section Console.

Variable colors : Colors.

Lemma consoleMessageReporter_line (message : Stylelint.Message) :
  exists l, forall m,
    consoleMessageReporter colors message m
    = (Normal tt, set_trace (trace m ++ [Log l]) m).
Proof. eexists. intros m. reflexivity. Qed.

Lemma consoleMessageReporter_logs (messageList : list Stylelint.Message)
    (m : Machine) :
  exists lines,
    for_each (consoleMessageReporter colors) messageList m
    = (Normal tt, set_trace (trace m ++ map Log lines) m).
Proof.
  revert m. induction messageList as [|message rest IH]; intros m.
  - exists []. simpl. unfold ret. rewrite set_trace_nothing_new. reflexivity.
  - destruct (consoleMessageReporter_line message) as [l Hl].
    destruct (IH (set_trace (trace m ++ [Log l]) m)) as [lines Hrest].
    exists (l :: lines). simpl. unfold bind. rewrite Hl, Hrest.
    rewrite trace_set_trace, set_trace_twice, <- app_assoc.
    reflexivity.
Qed.

Lemma consoleResultReporter_logs (results : list Stylelint.Result)
    (m : Machine) :
  exists lines,
    for_each (consoleResultReporter colors) results m
    = (Normal tt, set_trace (trace m ++ map Log lines) m).
Proof.
  revert m. induction results as [|result rest IH]; intros m.
  - exists []. simpl. unfold ret. rewrite set_trace_nothing_new. reflexivity.
  - simpl. unfold bind at 1. unfold consoleResultReporter at 1.
    unfold bind at 1. unfold gulpUtil_log at 1, emit_event, modify.
    set (header := underline colors (Stylelint.from result)).
    destruct (consoleMessageReporter_logs
                (filter from_stylelint (Stylelint.messages result))
                (set_trace (trace m ++ [Log header]) m)) as [body Hbody].
    rewrite Hbody, trace_set_trace, set_trace_twice, <- app_assoc.
    match goal with
    | |- context [for_each _ rest ?m1] =>
        destruct (IH m1) as [lines Hrest]; rewrite Hrest
    end.
    exists (header :: body ++ lines)%list.
    rewrite trace_set_trace, set_trace_twice, <- app_assoc.
    simpl. rewrite map_app. reflexivity.
Qed.

(** C9.  The console reporter returns the very list it was given, it does
    not throw, and all it does to the machine is to log lines; on the
    empty list it logs nothing. *)
Theorem console_reporter_is_transparent
    (resultList : list Stylelint.Result) (m : Machine) :
  (exists lines,
      consoleResultListReporter colors resultList m
      = (Normal resultList, set_trace (trace m ++ map Log lines) m))
  /\ consoleResultListReporter colors [] m = (Normal [], m).
Proof.
  split.
  - unfold consoleResultListReporter, bind.
    destruct (consoleResultReporter_logs
                (filter has_messages resultList) m) as [lines Hlines].
    rewrite Hlines. exists lines. reflexivity.
  - reflexivity.
Qed.

End Console.

(** ** Properties of the stream *)

Section Stream.

Variable host : Host.
Variable self : Closure.

Lemma unpiped_after (m : Machine) (new : list Event) :
  unpiped (set_trace (trace m ++ new) m) = unpiped m || existsb is_refusal new.
Proof. unfold unpiped. rewrite trace_set_trace. apply existsb_app. Qed.

(** What [onFile] does about the pipe: it throws for a stream only, and
    only a stream makes the source unpipe. *)
Lemma onFile_outcome (file : File) (m : Machine) :
  unpiped (snd (onFile host self file m)) = unpiped m || isStream file
  /\ (fst (onFile host self file m) = Normal tt \/ isStream file = true).
Proof.
  destruct file as [from [|data|]].
  - split; [|left; reflexivity].
    apply (unpiped_after m [Callback None (Some (mkFile from CNull))]).
  - split; [|left; reflexivity].
    unfold unpiped, onFile, bind, postcssProcessor_process, bind, emit_event,
      external_promise, bind, new_promise, modify, transform_done, bind,
      emit_event, modify, ret.
    simpl. rewrite !existsb_app. simpl. rewrite !orb_false_r. reflexivity.
  - split; [|right; reflexivity].
    unfold unpiped, onFile, transform_done, bind, emit_event, modify,
      emit_error.
    simpl. destruct (error_listener host); simpl;
      rewrite !existsb_app; simpl; rewrite ?orb_true_r; reflexivity.
Qed.

Lemma write_files_cons (file : File) (rest : list File) (m : Machine) :
  write_files host self (file :: rest) m
  = if unpiped m then (Normal tt, m)
    else match onFile host self file m with
         | (Normal _, m1) => write_files host self rest m1
         | (Throw e, m1) => (Throw e, m1)
         end.
Proof.
  cbn [write_files]. unfold bind, get, ret.
  destruct (unpiped m); [reflexivity|].
  destruct (onFile host self file m) as [[[]|e] m1]; reflexivity.
Qed.

Lemma write_files_unpiped (files : list File) (m : Machine) :
  unpiped m = true -> write_files host self files m = (Normal tt, m).
Proof.
  intros Hgone. destruct files as [|file rest]; [reflexivity|].
  rewrite write_files_cons, Hgone. reflexivity.
Qed.

Lemma write_files_stops (file : File) (before after : list File)
    (m : Machine) :
  isStream file = true ->
  write_files host self (before ++ file :: after) m
  = write_files host self (before ++ [file]) m
  /\ unpiped (snd (write_files host self (before ++ [file]) m)) = true.
Proof.
  intros Hstream. revert m.
  induction before as [|f rest IH]; intros m; cbn [app];
    rewrite !write_files_cons;
    (destruct (unpiped m) eqn:Hm; [split; [reflexivity | exact Hm]|]).
  - destruct (onFile_outcome file m) as [Hgone _].
    rewrite Hstream, orb_true_r in Hgone.
    destruct (onFile host self file m) as [[[]|e] m1]; cbn [fst snd] in *.
    + rewrite !write_files_unpiped by exact Hgone.
      split; [reflexivity | exact Hgone].
    + split; [reflexivity | exact Hgone].
  - destruct (onFile_outcome f m) as [Hgone Hwhy].
    destruct (onFile host self f m) as [[[]|e] m1]; cbn [fst snd] in *.
    + apply IH.
    + split; [reflexivity|].
      destruct Hwhy as [Hwhy|Hwhy]; [discriminate Hwhy|].
      rewrite Hwhy, orb_true_r in Hgone. exact Hgone.
Qed.

(** C7, amended.  A file whose contents are a stream is answered at once
    through the callback with the plugin error ['Streaming not supported']
    and without the file, and the stream emits the error, which throws
    out of [onFile] when nobody listens.  Nothing else in the machine
    changes: no lint operation is added and those that are pending stay as
    they are.  The batch ends there: the files behind the stream are not
    written into the plugin, and the plugin is not ended, so its flush
    function does not run. *)
Theorem streaming_record_is_refused
    (file : File) (before after : list File) (m : Machine) :
  isStream file = true ->
  let failure := PluginError pluginName "Streaming not supported" in
  let refusal := Callback (Some failure) None in
  let fed := write_files host self (before ++ file :: after) m in
  onFile host self file m
  = (if error_listener host
     then (Normal tt,
           set_trace (trace m ++ [refusal; EmitError failure]) m)
     else (Throw failure, set_trace (trace m ++ [refusal]) m))
  /\ fed = write_files host self (before ++ [file]) m
  /\ end_of_files (snd fed) = (Normal tt, snd fed).
Proof.
  intros Hstream failure refusal fed.
  destruct (write_files_stops file before after m Hstream) as [Hfed Hgone].
  split; [|split; [exact Hfed|]].
  - unfold onFile, isNull, isStream in *.
    destruct (contents file); try discriminate Hstream.
    unfold transform_done, bind, emit_event, modify, emit_error.
    destruct (error_listener host); [|reflexivity].
    unfold emit_event, modify, set_trace. cbn [cwd heap slots microtasks io_queue promiseList
                           trace].
    rewrite <- app_assoc. reflexivity.
  - unfold end_of_files, bind, get. unfold fed. rewrite Hfed, Hgone.
    reflexivity.
Qed.

End Stream.

Lemma streaming_record_is_refused_witness :
  isStream Sample.piped = true
  /\ onFile Sample.quiet_host Sample.here Sample.piped (boot "/work")
     = (Normal tt,
        set_trace
          [Callback (Some (PluginError pluginName "Streaming not supported"))
                    None;
           EmitError (PluginError pluginName "Streaming not supported")]
          (boot "/work"))
  /\ write_files Sample.quiet_host Sample.here
       [Sample.a_css; Sample.piped; Sample.hollow] (boot "/work")
     = write_files Sample.quiet_host Sample.here
         [Sample.a_css; Sample.piped] (boot "/work").
Proof.
  split; [reflexivity|].
  destruct (streaming_record_is_refused Sample.quiet_host Sample.here
              Sample.piped [Sample.a_css] [Sample.hollow] (boot "/work")
              eq_refl) as (Hone & Hfed & _).
  split; [exact Hone | exact Hfed].
Defined.

(** C7 as stated fails: a stream among the files does stop the batch.
    With a buffer ahead of it, whose lint is under way, and a file behind
    it, the file behind is never handed to the plugin, and the event loop
    comes to rest with no report written and the stream not flushed; the
    same files without the stream are reported. *)
Lemma streaming_record_aborts_batch :
  let failure := PluginError pluginName "Streaming not supported" in
  let with_stream :=
    pipe Sample.quiet_host None [Sample.a_css; Sample.piped; Sample.hollow]
         (boot "/work") in
  let without :=
    pipe Sample.quiet_host None [Sample.a_css; Sample.hollow]
         (boot "/work") in
  fst with_stream = Normal Sample.here
  /\ fst without = Normal Sample.here
  /\ idle (run Sample.no_colors Sample.quiet_host Sample.here 64
               (snd with_stream)) = true
  /\ trace (run Sample.no_colors Sample.quiet_host Sample.here 64
                (snd with_stream))
     = [ Process "a {}" "a.css";
         Callback None (Some Sample.a_css);
         Callback (Some failure) None;
         EmitError failure ]
  /\ trace (run Sample.no_colors Sample.quiet_host Sample.here 64
                (snd without))
     = [ Process "a {}" "a.css";
         Callback None (Some Sample.a_css);
         Callback None (Some Sample.hollow);
         Mkdirp "/work";
         WriteFile "/work/checkstyle.xml" "<checkstyle files=1/>";
         FlushDone ].
Proof.
  cbv zeta. repeat split; vm_compute; reflexivity.
Qed.

Lemma then_keeps_trace (p : nat) (onFulfilled onRejected : option Handler)
    (m : Machine) :
  exists d m1,
    then_ p onFulfilled onRejected m = (Normal d, m1) /\ trace m1 = trace m.
Proof.
  unfold then_, bind, new_promise, promise_state, get. simpl.
  destruct (nth p (heap m ++ [Pending []]) (Pending []));
    simpl; eexists _, _; split; reflexivity.
Qed.

(** C10.  An [output] option that is the empty string, or falsy in any
    other way, counts as absent: the stream is built as it is built
    without the option, its report goes to ['checkstyle.xml'] resolved
    against the working directory of the moment the stream is built, and
    that is where [mkdirp] and [writeFile] are directed later, wherever
    the process is by then. *)
Theorem falsy_output_means_default
    (host : Host) (given : Options) (m later : Machine) (xmlString : string) :
  truthy (output given) = false ->
  let file := path_resolve host (cwd m) "checkstyle.xml" in
  let dir := path_dirname host file in
  let self := mkClosure given file dir in
  gulpStylelintCheckstyle host (Some given) m
  = (Normal self, set_promiseList [] m)
  /\ gulpStylelintCheckstyle host (Some (with_output JUndefined given)) m
     = (Normal (mkClosure (with_output JUndefined given) file dir),
        set_promiseList [] m)
  /\ trace (snd (outputWriter host self xmlString later))
     = (trace later ++ [Mkdirp dir])%list
  /\ trace (snd (writeFile_callback host self xmlString later))
     = (trace later ++ [WriteFile file xmlString])%list.
Proof.
  intros Hfalsy file dir self.
  split; [|split; [|split]].
  - unfold gulpStylelintCheckstyle, js_or. simpl. rewrite Hfalsy.
    reflexivity.
  - reflexivity.
  - unfold outputWriter.
    cbv [bind emit_event modify external_promise new_promise ret].
    match goal with
    | |- context [then_ ?p ?f ?r ?m0] =>
        destruct (then_keeps_trace p f r m0) as (d & m1 & Hthen & Htrace);
        rewrite Hthen
    end.
    simpl. rewrite Htrace. reflexivity.
  - reflexivity.
Qed.

Lemma falsy_output_means_default_witness :
  truthy (output (with_output (JStr "") no_options)) = false
  /\ gulpStylelintCheckstyle Sample.quiet_host
       (Some (with_output (JStr "") no_options)) (boot "/work")
     = (Normal (mkClosure (with_output (JStr "") no_options)
                          "/work/checkstyle.xml" "/work"),
        boot "/work").
Proof.
  split; [reflexivity|].
  apply (falsy_output_means_default Sample.quiet_host
           (with_output (JStr "") no_options) (boot "/work") (boot "/tmp")
           "<checkstyle/>").
  reflexivity.
Defined.

(** A stream built without any argument has the same report file. *)
Lemma no_argument_means_default (host : Host) (m : Machine) :
  gulpStylelintCheckstyle host None m
  = (Normal (mkClosure no_options
               (path_resolve host (cwd m) "checkstyle.xml")
               (path_dirname host
                  (path_resolve host (cwd m) "checkstyle.xml"))),
     set_promiseList [] m).
Proof. reflexivity. Qed.

(** A name given for the report is resolved as it stands; anything truthy
    that is not a string makes [path.resolve] throw. *)
Lemma given_output_is_resolved (host : Host) (given : Options) (m : Machine) :
  truthy (output given) = true ->
  fst (gulpStylelintCheckstyle host (Some given) m)
  = match output given with
    | JStr name =>
        Normal (mkClosure given (path_resolve host (cwd m) name)
                  (path_dirname host (path_resolve host (cwd m) name)))
    | _ => Throw (TypeError "Path must be a string")
    end.
Proof.
  intros Htruthy. unfold gulpStylelintCheckstyle, js_or.
  rewrite Htruthy. destruct (output given); reflexivity.
Qed.

(** *** The reporters at the end of the stream *)

(** When the fail-after-all-errors reporter is selected and there are
    issues, [provideResultsToReporters] throws out of [reporters.map]:
    [Promise.all] is not reached. *)
Lemma provideResultsToReporters_throws
    (colors : Colors) (self : Closure)
    (results : list Stylelint.Result) (m : Machine) :
  truthy (failAfterAllErrors (options self)) = true ->
  0 < countIssuesInResultList results ->
  exists e, fst (provideResultsToReporters colors self results m)
            = Throw e.
Proof.
  intros Hfail Hcount. unfold provideResultsToReporters. rewrite Hfail.
  unfold bind at 1.
  assert (Hmap : forall m0,
             exists e m1,
               array_map (fun reporter => reporter results)
                 ([fun results0 : list Stylelint.Result =>
                     failAfterAllErrorsReporter results0 ;; ret VUndefined])
                 m0 = (Throw e, m1)).
  { intros m0. simpl. unfold bind, failAfterAllErrorsReporter.
    destruct (countIssuesInResultList results) as [|k]; [lia|].
    cbn [Nat.ltb Nat.leb]. unfold throw. eexists _, _. reflexivity. }
  assert (Hcons : forall (rs1 rs2 : list (list Stylelint.Result -> M Value)) m0,
             (forall m', exists e m1,
                 array_map (fun reporter => reporter results) rs2 m'
                 = (Throw e, m1)) ->
             exists e m1,
               array_map (fun reporter => reporter results) (rs1 ++ rs2)%list m0
               = (Throw e, m1)).
  { induction rs1 as [|r rest IH]; intros rs2 m0 H2; simpl; [apply H2|].
    unfold bind at 1. destruct (r results m0) as [[v|e] m1].
    - destruct (IH rs2 m1 H2) as (e & m2 & He). unfold bind. rewrite He.
      eexists _, _. reflexivity.
    - eexists _, _. reflexivity. }
  match goal with
  | |- context [array_map _ (?a ++ ?b ++ ?c)%list m] =>
      destruct (Hcons (a ++ b)%list c m Hmap) as (e & m1 & He);
      rewrite app_assoc, He
  end.
  exists e. reflexivity.
Qed.

(** C6 at work on one file with one issue, console and fail-after-all
    both switched on.  All three reporters get the results, but the throw of
    the last one ends [provideResultsToReporters] before [Promise.all]:
    the error is emitted and the stream is flushed while the report is
    still to be written; [mkdirp] and [writeFile] come afterwards, awaited
    by nobody. *)
Theorem failing_reporter_leaves_writer_unawaited :
  let piped :=
    pipe Sample.quiet_host (Some Sample.console_and_fail) [Sample.a_css]
         (boot "/work") in
  let finished :=
    run Sample.no_colors Sample.quiet_host Sample.there 64 (snd piped) in
  fst piped = Normal Sample.there
  /\ fst (provideResultsToReporters Sample.no_colors Sample.there
             [Stylelint.mkResult "a.css" [Sample.empty_block]] (snd piped))
     = Throw (Error "1 linting issue has been found.")
  /\ idle finished = true
  /\ trace finished
     = [ Process "a {}" "a.css";
         Callback None (Some Sample.a_css);
         Log "a.css";
         Log "3:7 warning Unexpected empty block";
         EmitError (PluginErrorOf pluginName
                      (Error "1 linting issue has been found."));
         FlushDone;
         Mkdirp "/work";
         WriteFile "/work/checkstyle.xml" "<checkstyle files=1/>" ].
Proof.
  cbv zeta. repeat split; vm_compute; reflexivity.
Qed.

(** The same run without the fail-after-all-errors reporter: the stream
    is flushed after the report has been written. *)
Lemma passing_reporters_are_awaited :
  let piped :=
    pipe Sample.quiet_host (Some Sample.console_only) [Sample.a_css]
         (boot "/work") in
  fst piped
  = Normal (mkClosure Sample.console_only "/work/checkstyle.xml" "/work")
  /\ trace (run Sample.no_colors Sample.quiet_host
              (mkClosure Sample.console_only "/work/checkstyle.xml" "/work")
              64 (snd piped))
     = [ Process "a {}" "a.css";
         Callback None (Some Sample.a_css);
         Log "a.css";
         Log "3:7 warning Unexpected empty block";
         Mkdirp "/work";
         WriteFile "/work/checkstyle.xml" "<checkstyle files=1/>";
         FlushDone ].
Proof.
  cbv zeta. split; vm_compute; reflexivity.
Qed.

(** ** Further properties of the adapters and the reporters *)

Open Scope list_scope.




Lemma filter_from_stylelint_nil_iff (l : list Stylelint.Message) :
  filter from_stylelint l = [] <->
  (forall m, In m l -> Stylelint.plugin m <> "stylelint").
Proof.
  split.
  - intros Hnil m Hin Heq.
    assert (Hf : In m (filter from_stylelint l)).
    { apply filter_In. split; [exact Hin|]. unfold from_stylelint.
      rewrite Heq. reflexivity. }
    rewrite Hnil in Hf. exact Hf.
  - apply filter_from_stylelint_none.
Qed.

(** X1.  The adapted list names, in their order, the files of the results
    that have messages, so it is never longer than the list of results; a
    file is named in it exactly when one of its results has a message. *)
Theorem result_list_adapter_keeps_order (resultList : list Stylelint.Result) :
  map Checkstyle.filename (stylelintToCheckstyleResultListAdapter resultList)
  = map Stylelint.from (filter has_messages resultList)
  /\ length (stylelintToCheckstyleResultListAdapter resultList)
     <= length resultList
  /\ (forall name,
        In name (map Checkstyle.filename
                     (stylelintToCheckstyleResultListAdapter resultList))
        <-> exists r, In r resultList /\ Stylelint.from r = name
                      /\ Stylelint.messages r <> []).
Proof.
  assert (Hnames :
            map Checkstyle.filename
                (stylelintToCheckstyleResultListAdapter resultList)
            = map Stylelint.from (filter has_messages resultList)).
  { unfold stylelintToCheckstyleResultListAdapter. rewrite map_map.
    reflexivity. }
  split; [exact Hnames|]. split.
  - unfold stylelintToCheckstyleResultListAdapter.
    rewrite length_map. apply filter_length_le.
  - intros name. rewrite Hnames, in_map_iff. split.
    + intros (r & Hfrom & Hin). apply filter_In in Hin.
      destruct Hin as [Hin Hhas]. exists r. repeat split; try assumption.
      unfold has_messages in Hhas. intros Hnil. rewrite Hnil in Hhas.
      discriminate Hhas.
    + intros (r & Hin & Hfrom & Hne). exists r. split; [exact Hfrom|].
      apply filter_has_messages_In; assumption.
Qed.

(** X2.  Every entry of the adapted list has a message exactly when every
    result that has messages has one from stylelint. *)
Theorem report_entries_nonempty_iff (resultList : list Stylelint.Result) :
  Forall (fun entry => Checkstyle.messages entry <> [])
         (stylelintToCheckstyleResultListAdapter resultList)
  <-> Forall (fun result =>
                Stylelint.messages result <> [] ->
                has_stylelint_message result)
             resultList.
Proof.
  unfold stylelintToCheckstyleResultListAdapter.
  induction resultList as [|r rest IH]; simpl.
  - split; constructor.
  - unfold has_messages at 1.
    destruct (Stylelint.messages r) as [|m0 ms] eqn:Hmsgs; simpl.
    + rewrite IH. split.
      * intros Hrest. constructor; [|exact Hrest]. intros Hne. congruence.
      * intros Hall. inversion Hall; assumption.
    + split.
      * intros Hall. inversion Hall as [|? ? Hhead Htail]; subst.
        constructor; [|apply IH; exact Htail].
        intros _. unfold has_stylelint_message. rewrite Hmsgs.
        unfold stylelineToCheckstyleResultAdapter,
          stylelintToCheckstyleMessageListAdapter in Hhead.
        simpl in Hhead. rewrite Hmsgs in Hhead.
        destruct (filter from_stylelint (m0 :: ms)) as [|k ks] eqn:Hf;
          [exfalso; apply Hhead; reflexivity|].
        assert (Hk : In k (filter from_stylelint (m0 :: ms)))
          by (rewrite Hf; left; reflexivity).
        apply filter_In in Hk. destruct Hk as [Hin Htag].
        exists k. split; [exact Hin|].
        apply String.eqb_eq. exact Htag.
      * intros Hall. inversion Hall as [|? ? Hhead Htail]; subst.
        constructor; [|apply IH; exact Htail].
        unfold stylelineToCheckstyleResultAdapter,
          stylelintToCheckstyleMessageListAdapter. simpl. rewrite Hmsgs.
        destruct Hhead as (k & Hin & Htag);
          [rewrite Hmsgs; discriminate|].
        rewrite Hmsgs in Hin.
        intros Hnil. apply map_eq_nil in Hnil.
        apply filter_from_stylelint_nil_iff with (m := k) in Hnil;
          [contradiction | exact Hin].
Qed.

Lemma count_adapted_cons (r : Stylelint.Result) (rest : list Stylelint.Result) :
  countIssuesInResultList (stylelintToCheckstyleResultListAdapter (r :: rest))
  = length (filter from_stylelint (Stylelint.messages r))
    + countIssuesInResultList (stylelintToCheckstyleResultListAdapter rest).
Proof.
  unfold stylelintToCheckstyleResultListAdapter. simpl.
  unfold has_messages at 1.
  destruct (Stylelint.messages r) as [|m0 ms] eqn:Hmsgs; simpl.
  - reflexivity.
  - rewrite count_cons. simpl.
    unfold stylelintToCheckstyleMessageListAdapter.
    rewrite length_map, Hmsgs. reflexivity.
Qed.

Lemma count_adapted_sum (resultList : list Stylelint.Result) :
  countIssuesInResultList (stylelintToCheckstyleResultListAdapter resultList)
  = list_sum (map (fun r => length (filter from_stylelint
                                           (Stylelint.messages r)))
                  resultList).
Proof.
  induction resultList as [|r rest IH]; [reflexivity|].
  rewrite count_adapted_cons. simpl. rewrite IH. reflexivity.
Qed.

(** X3.  The adapted list holds as many messages as the results hold
    messages from stylelint, never more than the results hold in all. *)
Theorem report_counts_stylelint_messages (resultList : list Stylelint.Result) :
  countIssuesInResultList (stylelintToCheckstyleResultListAdapter resultList)
  = list_sum (map (fun r => length (filter from_stylelint
                                           (Stylelint.messages r)))
                  resultList)
  /\ countIssuesInResultList
       (stylelintToCheckstyleResultListAdapter resultList)
     <= countIssuesInResultList resultList.
Proof.
  split; [apply count_adapted_sum|].
  rewrite count_adapted_sum.
  induction resultList as [|r rest IH]; [apply Nat.le_refl|].
  rewrite count_cons.
  pose proof (filter_length_le from_stylelint (Stylelint.messages r)).
  simpl. lia.
Qed.

Lemma fail_reporter_outcome (results : list Stylelint.Result) (m : Machine) :
  failAfterAllErrorsReporter results m
  = if Nat.ltb 0 (countIssuesInResultList results)
    then (Throw (issues_found (countIssuesInResultList results)), m)
    else (Normal tt, m).
Proof.
  unfold failAfterAllErrorsReporter, issues_found.
  destruct (Nat.ltb 0 (countIssuesInResultList results)); reflexivity.
Qed.

Lemma count_positive_iff {R : Type} `{HasMessages R} (resultList : list R) :
  0 < countIssuesInResultList resultList
  <-> exists r, In r resultList /\ messages_of r <> [].
Proof.
  induction resultList as [|r rest IH].
  - split; [intros Hlt; inversion Hlt | intros (r & [] & _)].
  - rewrite count_cons. split.
    + intros Hpos. destruct (messages_of r) as [|x xs] eqn:Hr.
      * simpl in Hpos. apply IH in Hpos. destruct Hpos as (r' & Hin & Hne).
        exists r'. split; [right; exact Hin | exact Hne].
      * exists r. split; [left; reflexivity | rewrite Hr; discriminate].
    + intros (r' & [Heq|Hin] & Hne).
      * subst r'. destruct (messages_of r); [congruence | simpl; lia].
      * assert (0 < countIssuesInResultList rest)
          by (apply IH; exists r'; split; assumption).
        lia.
Qed.

Lemma fail_reporter_throws_iff
    (resultList : list Stylelint.Result) (m : Machine) :
  (exists e, failAfterAllErrorsReporter resultList m = (Throw e, m))
  <-> exists r, In r resultList /\ Stylelint.messages r <> [].
Proof.
  rewrite fail_reporter_outcome.
  destruct (Nat.ltb 0 (countIssuesInResultList resultList)) eqn:Hcount; split.
  - intros _.
    exact (proj1 (count_positive_iff resultList)
                 (proj1 (Nat.ltb_lt _ _) Hcount)).
  - intros _. eexists. reflexivity.
  - intros [e He]. discriminate He.
  - intros Hsome.
    pose proof (proj2 (count_positive_iff resultList) Hsome) as Hpos.
    apply Nat.ltb_lt in Hpos. congruence.
Qed.

(** X4.  When the results hold messages, none of them from stylelint, the
    fail-after-all-errors reporter throws although the adapted list holds
    no message at all. *)
Theorem fail_policy_counts_foreign_messages
    (resultList : list Stylelint.Result) (m : Machine) :
  (forall r msg, In r resultList -> In msg (Stylelint.messages r) ->
                 Stylelint.plugin msg <> "stylelint") ->
  (exists r, In r resultList /\ Stylelint.messages r <> []) ->
  (exists e, failAfterAllErrorsReporter resultList m = (Throw e, m))
  /\ countIssuesInResultList
       (stylelintToCheckstyleResultListAdapter resultList) = 0.
Proof.
  intros Hforeign Hsome. split.
  - apply fail_reporter_throws_iff. exact Hsome.
  - clear Hsome.
    pose proof (count_adapted_sum resultList) as Hsum.
    rewrite Hsum. clear Hsum.
    induction resultList as [|r rest IH]; [reflexivity|].
    simpl. rewrite filter_from_stylelint_none.
    + simpl. apply IH. intros r' msg Hin. apply Hforeign. right. exact Hin.
    + intros msg Hin. apply (Hforeign r); [left; reflexivity | exact Hin].
Qed.

Lemma fail_policy_counts_foreign_messages_witness :
  (exists e, failAfterAllErrorsReporter [Sample.clean; Sample.only_foreign]
               (boot "/work") = (Throw e, boot "/work"))
  /\ countIssuesInResultList
       (stylelintToCheckstyleResultListAdapter
          [Sample.clean; Sample.only_foreign]) = 0.
Proof.
  apply fail_policy_counts_foreign_messages.
  - intros r msg [<-|[<-|[]]]; simpl; [intros [] | intros [<-|[]]].
    simpl. discriminate.
  - exists Sample.only_foreign. split; [right; left; reflexivity|].
    simpl. discriminate.
Defined.

Section ConsoleSize.

Variable colors : Colors.





End ConsoleSize.

Section Intake.

Variable host : Host.
Variable self : Closure.

Lemma passed_on_app (a b : list Event) :
  passed_on (a ++ b) = (passed_on a ++ passed_on b)%list.
Proof.
  induction a as [|e rest IH]; [reflexivity|].
  destruct e as [| | | |[err|] [file|]| |]; simpl; rewrite IH; reflexivity.
Qed.

Lemma processed_app (a b : list Event) :
  processed (a ++ b) = (processed a ++ processed b)%list.
Proof.
  induction a as [|e rest IH]; [reflexivity|].
  destruct e; simpl; rewrite IH; reflexivity.
Qed.

Lemma refused_app (a b : list Event) :
  refused (a ++ b) = (refused a ++ refused b)%list.
Proof.
  induction a as [|e rest IH]; [reflexivity|].
  destruct e as [| | | |[err|] file| |]; simpl; rewrite IH; reflexivity.
Qed.

(** What one file adds. *)
Lemma onFile_adds (file : File) (m : Machine) :
  exists new,
    trace (snd (onFile host self file m)) = (trace m ++ new)%list
    /\ passed_on new = (if isStream file then [] else [file])
    /\ processed new
       = (if is_buffer file then [(contents_toString file, path file)]
          else [])
    /\ refused new
       = (if isStream file
          then [PluginError pluginName "Streaming not supported"] else [])
    /\ length (promiseList (snd (onFile host self file m)))
       = length (promiseList m) + (if is_buffer file then 1 else 0)
    /\ length (io_queue (snd (onFile host self file m)))
       = length (io_queue m) + (if is_buffer file then 1 else 0)
    /\ microtasks (snd (onFile host self file m)) = microtasks m.
Proof.
  destruct file as [from [|data|]].
  - exists [Callback None (Some (mkFile from CNull))].
    repeat split; simpl; lia.
  - exists [Process data from;
            Callback None (Some (mkFile from (CBuffer data)))].
    unfold onFile, bind, postcssProcessor_process, bind, emit_event,
      external_promise, bind, new_promise, modify, transform_done, bind,
      emit_event, modify, ret, set_trace.
    simpl. rewrite <- app_assoc, !length_app. simpl. repeat split.
  - unfold onFile, transform_done, bind, emit_event, modify, emit_error.
    simpl.
    destruct (error_listener host).
    + exists [Callback (Some (PluginError pluginName
                                "Streaming not supported")) None;
              EmitError (PluginError pluginName "Streaming not supported")].
      simpl. rewrite <- app_assoc. repeat split; simpl; lia.
    + exists [Callback (Some (PluginError pluginName
                                "Streaming not supported")) None].
      simpl. repeat split; simpl; lia.
Qed.

(** X6.  Writing files into the plugin, none refused so far: the files
    ahead of the first stream are handed on, the files themselves and in
    the order they came; each buffer among them, in that order, is given
    to the processor with its path as [from] and adds one promise to the
    list and one pending lint; the first stream is answered with the plugin
    error, once, and nothing behind it is looked at; no job is queued. *)
Theorem intake_keeps_order (files : list File) (m : Machine) :
  unpiped m = false ->
  let fed := snd (write_files host self files m) in
  exists new,
    trace fed = (trace m ++ new)%list
    /\ passed_on new = before_stream files
    /\ processed new
       = map (fun f => (contents_toString f, path f))
             (filter is_buffer (before_stream files))
    /\ refused new
       = (if existsb isStream files
          then [PluginError pluginName "Streaming not supported"] else [])
    /\ length (promiseList fed)
       = length (promiseList m)
         + length (filter is_buffer (before_stream files))
    /\ length (io_queue fed)
       = length (io_queue m)
         + length (filter is_buffer (before_stream files))
    /\ microtasks fed = microtasks m.
Proof.
  cbv zeta. revert m.
  induction files as [|file rest IH]; intros m Hpiped.
  - exists []. simpl. rewrite app_nil_r. repeat split; lia.
  - rewrite write_files_cons, Hpiped.
    destruct (onFile_adds file m)
      as (new1 & Ht1 & Hp1 & Hs1 & Hr1 & Hl1 & Hq1 & Hm1).
    destruct (onFile_outcome host self file m) as [Hgone Hwhy].
    rewrite Hpiped in Hgone. cbn [orb] in Hgone.
    cbn [before_stream existsb].
    destruct (isStream file) eqn:Hstream.
    + assert (Hbuf : is_buffer file = false)
        by (unfold is_buffer, isStream in *; destruct (contents file);
            [reflexivity | discriminate | reflexivity]).
      rewrite Hbuf in *. cbn [orb filter length map].
      assert (Hsnd : snd (match onFile host self file m with
                          | (Normal _, m1) => write_files host self rest m1
                          | (Throw e, m1) => (Throw e, m1)
                          end) = snd (onFile host self file m)).
      { destruct (onFile host self file m) as [[[]|e] m1]; cbn [snd] in *;
          [rewrite write_files_unpiped by exact Hgone|]; reflexivity. }
      rewrite Hsnd. exists new1.
      rewrite Ht1, Hp1, Hs1, Hr1, Hl1, Hq1, Hm1. repeat split.
    + destruct Hwhy as [Hwhy|Hwhy]; [|discriminate Hwhy].
      destruct (onFile host self file m) as [[[]|e] m1]; cbn [fst snd] in *;
        [|discriminate Hwhy].
      destruct (IH m1 Hgone)
        as (new2 & Ht2 & Hp2 & Hs2 & Hr2 & Hl2 & Hq2 & Hm2).
      exists (new1 ++ new2)%list.
      rewrite passed_on_app, processed_app, refused_app.
      rewrite Ht2, Hp2, Hs2, Hr2, Hl2, Hq2, Hm2.
      rewrite Ht1, Hp1, Hs1, Hr1, Hl1, Hq1, Hm1.
      cbn [orb filter]. rewrite app_assoc.
      destruct (is_buffer file); cbn [length map app];
        repeat split; lia.
Qed.

End Intake.

Lemma intake_keeps_order_witness :
  unpiped (boot "/work") = false
  /\ let fed := snd (write_files Sample.quiet_host Sample.here
                       [Sample.hollow; Sample.a_css; Sample.piped;
                        Sample.a_css] (boot "/work")) in
     exists new,
       trace fed = (trace (boot "/work") ++ new)%list
       /\ passed_on new = [Sample.hollow; Sample.a_css]
       /\ processed new = [("a {}", "a.css")]
       /\ refused new
          = [PluginError pluginName "Streaming not supported"]
       /\ length (promiseList fed) = 1
       /\ length (io_queue fed) = 1
       /\ microtasks fed = [].
Proof.
  split; [reflexivity|].
  exact (intake_keeps_order Sample.quiet_host Sample.here
           [Sample.hollow; Sample.a_css; Sample.piped; Sample.a_css]
           (boot "/work") eq_refl).
Defined.


Lemma number_to_string_is (z : Z) (s : string) :
  number_to_string z = s ->
  option_map Z.of_int (NilZero.int_of_string s) = Some z.
Proof. intros <-. apply number_to_string_reads_back. Qed.

Lemma number_to_string_eqb (z : Z) (s : string) (n : Z) :
  number_to_string n = s ->
  String.eqb s (number_to_string z) = Z.eqb n z.
Proof.
  intros Hn. destruct (Z.eqb_spec n z) as [->|Hne].
  - rewrite Hn. apply String.eqb_refl.
  - apply String.eqb_neq. intros Heq. apply Hne.
    pose proof (number_to_string_reads_back n) as H1.
    pose proof (number_to_string_reads_back z) as H2.
    rewrite Hn, Heq, H2 in H1. congruence.
Qed.

Lemma number_is_no_member (z : Z) :
  existsb (String.eqb (number_to_string z)) Object_prototype = false.
Proof.
  apply not_true_is_false. intros Hex.
  apply existsb_exists in Hex. destruct Hex as (name & Hin & Heq).
  apply String.eqb_eq in Heq. apply number_to_string_is in Heq.
  simpl in Hin.
  repeat (destruct Hin as [<-|Hin]; [vm_compute in Heq; discriminate|]).
  exact Hin.
Qed.

(** X7.  In the earlier revision a message with severity code 1 is adapted
    to ['warning'], one with code 2 to ['error'], and one with any other
    number to [undefined]. *)
Theorem legacy_severity_of_code (message : Stylelint.Message) (code : Z) :
  Checkstyle.severity
    (Legacy.stylelintToCheckstyleMessageAdapter
       (with_severity (JNum code) message))
  = if Z.eqb code 1 then JStr "warning"
    else if Z.eqb code 2 then JStr "error"
    else JUndefined.
Proof.
  unfold Legacy.stylelintToCheckstyleMessageAdapter, get_property,
    Legacy.severityTypeMapping, with_severity.
  cbn [Checkstyle.severity Stylelint.severity to_property_key own_property].
  rewrite (number_to_string_eqb code "1" 1) by reflexivity.
  rewrite (number_to_string_eqb code "2" 2) by reflexivity.
  rewrite (Z.eqb_sym 1 code), (Z.eqb_sym 2 code).
  destruct (Z.eqb code 1); [reflexivity|].
  destruct (Z.eqb code 2); [reflexivity|].
  rewrite number_is_no_member. reflexivity.
Qed.

Lemma message_lists_differ_in_severity_only
    (messageList : list Stylelint.Message) :
  Forall2 same_but_severity
    (Legacy.stylelintToCheckstyleMessageListAdapter messageList)
    (stylelintToCheckstyleMessageListAdapter messageList).
Proof.
  unfold Legacy.stylelintToCheckstyleMessageListAdapter,
    stylelintToCheckstyleMessageListAdapter.
  induction (filter from_stylelint messageList) as [|m ms IH]; simpl.
  - constructor.
  - constructor; [repeat split | exact IH].
Qed.

(** X8.  The two revisions adapt a list of results to lists with the same
    file names and, entry by entry, the same lines, columns and texts:
    they differ in the severities only. *)
Theorem revisions_differ_in_severity_only
    (resultList : list Stylelint.Result) :
  Forall2
    (fun old new =>
       Checkstyle.filename old = Checkstyle.filename new
       /\ Forall2 same_but_severity
                  (Checkstyle.messages old) (Checkstyle.messages new))
    (Legacy.stylelintToCheckstyleResultListAdapter resultList)
    (stylelintToCheckstyleResultListAdapter resultList).
Proof.
  unfold Legacy.stylelintToCheckstyleResultListAdapter,
    stylelintToCheckstyleResultListAdapter.
  induction (filter has_messages resultList) as [|r rest IH]; simpl.
  - constructor.
  - constructor; [|exact IH]. split; [reflexivity|].
    apply message_lists_differ_in_severity_only.
Qed.

(** ** Further properties of the stream *)

Lemma as_results_map (results : list Stylelint.Result) :
  as_results (map VResult results) = Some results.
Proof.
  induction results as [|r rest IH]; simpl; [reflexivity|].
  rewrite IH. reflexivity.
Qed.

Lemma consoleMessageReporter_uniform (colors : Colors)
    (messageList : list Stylelint.Message) :
  exists lines, forall m,
    for_each (consoleMessageReporter colors) messageList m
    = (Normal tt, set_trace (trace m ++ map Log lines) m).
Proof.
  induction messageList as [|message rest [lines IH]].
  - exists []. intros m. simpl. unfold ret.
    rewrite set_trace_nothing_new. reflexivity.
  - destruct (consoleMessageReporter_line colors message) as [l Hl].
    exists (l :: lines). intros m. simpl. unfold bind. rewrite Hl, IH.
    rewrite trace_set_trace, set_trace_twice, <- app_assoc. reflexivity.
Qed.

Lemma consoleResultReporter_uniform (colors : Colors)
    (results : list Stylelint.Result) :
  exists lines, forall m,
    for_each (consoleResultReporter colors) results m
    = (Normal tt, set_trace (trace m ++ map Log lines) m).
Proof.
  induction results as [|result rest [lines IH]].
  - exists []. intros m. simpl. unfold ret.
    rewrite set_trace_nothing_new. reflexivity.
  - destruct (consoleMessageReporter_uniform colors
                (filter from_stylelint (Stylelint.messages result)))
      as [body Hbody].
    exists (underline colors (Stylelint.from result) :: body ++ lines)%list.
    intros m. simpl for_each. unfold bind at 1.
    unfold consoleResultReporter at 1. unfold bind at 1.
    unfold gulpUtil_log at 1, emit_event, modify.
    rewrite Hbody, IH.
    rewrite !trace_set_trace, !set_trace_twice, <- !app_assoc.
    simpl. rewrite map_app. reflexivity.
Qed.

Lemma console_reporter_appends (colors : Colors)
    (resultList : list Stylelint.Result) (m : Machine) :
  consoleResultListReporter colors resultList m
  = (Normal resultList,
     set_trace (trace m ++ console_events colors resultList) m).
Proof.
  destruct (consoleResultReporter_uniform colors
              (filter has_messages resultList)) as [lines Hlines].
  unfold console_events, consoleResultListReporter, bind.
  rewrite !Hlines. reflexivity.
Qed.

Lemma bind_normal {A B : Type} (c : M A) (k : A -> M B) (m m1 : Machine)
    (a : A) (res : Completion B * Machine) :
  c m = (Normal a, m1) -> k a m1 = res -> bind c k m = res.
Proof. intros Hc Hk. unfold bind. rewrite Hc. exact Hk. Qed.

Lemma bind_throw {A B : Type} (c : M A) (k : A -> M B) (m m1 : Machine)
    (e : JsError) :
  c m = (Throw e, m1) -> bind c k m = (Throw e, m1).
Proof. intros Hc. unfold bind. rewrite Hc. reflexivity. Qed.

Lemma replace_nth_pre {A : Type} (pre suf : list A) (c : nat) (a : A) :
  replace_nth (length pre + c) a (pre ++ suf) = (pre ++ replace_nth c a suf)%list.
Proof.
  induction pre as [|x pre IH]; simpl; [reflexivity|].
  rewrite IH. reflexivity.
Qed.

Lemma try_catch_normal {A : Type} (c : M A) (h : JsError -> M A) m a m1 :
  c m = (Normal a, m1) -> try_catch c h m = (Normal a, m1).
Proof. intros Hc. unfold try_catch. rewrite Hc. reflexivity. Qed.

Lemma try_catch_throw {A : Type} (c : M A) (h : JsError -> M A) m e m1 res :
  c m = (Throw e, m1) -> h e m1 = res -> try_catch c h m = res.
Proof. intros Hc Hh. unfold try_catch. rewrite Hc. exact Hh. Qed.

Ltac use_cases :=
  repeat match goal with
         | H : ?x = true |- context [?x] => rewrite H
         | H : ?x = false |- context [?x] => rewrite H
         | H : ?x = None |- context [?x] => rewrite H
         | H : ?x = Some _ |- context [?x] => rewrite H
         end.

Ltac proj_machine :=
  cbv beta iota zeta delta
      [cwd heap slots microtasks io_queue promiseList trace
       set_heap set_slots set_microtasks set_io_queue set_promiseList
       set_trace fst snd on_fulfilled on_rejected derived].

Ltac light := cbv beta iota zeta delta [on_fulfilled on_rejected derived fst snd].

Ltac ev :=
  light;
  lazymatch goal with
  | |- bind ?c ?k ?m = _ =>
      let H := fresh "Hev" in
      eassert (H : c m = _) by ev;
      lazymatch type of H with
      | _ = (Normal _, _) => eapply bind_normal; [exact H | clear H; ev]
      | _ = (Throw _, _) => eapply bind_throw; exact H
      end
  | |- try_catch ?c ?h ?m = _ =>
      let H := fresh "Hev" in
      eassert (H : c m = _) by ev;
      lazymatch type of H with
      | _ = (Normal _, _) => eapply try_catch_normal; exact H
      | _ = (Throw _, _) => eapply try_catch_throw; [exact H | clear H; ev]
      end
  | |- ret _ _ = _ => unfold ret; reflexivity
  | |- throw _ _ = _ => unfold throw; reflexivity
  | |- new_promise _ _ = _ =>
      unfold new_promise; proj_machine;
      rewrite length_app, <- app_assoc; cbn [length app];
      reflexivity
  | |- promise_state _ _ = _ =>
      unfold promise_state, get; proj_machine;
      rewrite app_nth2_plus; cbn [nth]; reflexivity
  | |- set_promise _ _ _ = _ =>
      unfold set_promise, modify; proj_machine;
      rewrite replace_nth_pre; cbn [replace_nth app]; reflexivity
  | |- enqueue _ _ = _ =>
      unfold enqueue, modify; proj_machine; cbn [app]; reflexivity
  | |- emit_event _ _ = _ =>
      unfold emit_event, modify; proj_machine;
      rewrite <- ?app_assoc; cbn [app]; reflexivity
  | |- modify _ _ = _ =>
      unfold modify; proj_machine; cbn [app map]; reflexivity
  | |- get _ _ = _ =>
      unfold get; proj_machine; rewrite ?Nat.eqb_refl;
      cbn [find_slots replace_nth]; rewrite ?Nat.eqb_refl;
      cbv beta iota; reflexivity
  | |- for_each _ [] _ = _ => cbn [for_each]; unfold ret; reflexivity
  | |- for_each _ (_ :: _) _ = _ => cbn [for_each]; ev
  | |- array_map _ [] _ = _ => cbn [array_map]; unfold ret; reflexivity
  | |- array_map _ (_ :: _) _ = _ => cbn [array_map]; ev
  | |- settle _ _ _ = _ => unfold settle; ev
  | |- resolve _ _ _ = _ => unfold resolve; ev
  | |- then_ _ _ _ _ = _ => unfold then_; ev
  | |- Promise_resolve _ _ = _ => unfold Promise_resolve; ev
  | |- external_promise _ _ = _ => unfold external_promise; ev
  | |- Promise_all _ _ = _ =>
      unfold Promise_all; cbn [indexed map fst snd]; ev
  | |- all_element _ _ _ _ = _ => unfold all_element; ev
  | |- run_job _ _ _ _ _ = _ => unfold run_job; ev
  | |- run_handler _ _ _ _ _ _ = _ =>
      unfold run_handler; rewrite ?as_results_map; ev
  | |- provideResultsToReporters _ _ _ _ = _ =>
      unfold provideResultsToReporters; use_cases; cbn [app]; ev
  | |- checkstyleReporter _ _ = _ => unfold checkstyleReporter; ev
  | |- consoleResultListReporter _ _ _ = _ =>
      rewrite console_reporter_appends; proj_machine;
      rewrite <- ?app_assoc; reflexivity
  | |- failAfterAllErrorsReporter _ _ = _ =>
      rewrite fail_reporter_outcome; use_cases; cbv beta iota; reflexivity
  | |- outputWriter _ _ _ _ = _ => unfold outputWriter; ev
  | |- writeFile_callback _ _ _ _ = _ => unfold writeFile_callback; ev
  | |- onError _ _ _ = _ => unfold onError; ev
  | |- flush_done _ = _ => unfold flush_done; ev
  | |- emit_error _ _ _ = _ => unfold emit_error; use_cases; ev
  | |- match all_filled ?l with _ => _ end _ = _ =>
      cbn [all_filled]; ev
  end.

Section Run.

Variable colors : Colors.
Variable host : Host.
Variable self : Closure.

Lemma run_micro (n : nat) c h s j q io pl t :
  run colors host self (S n) (mkMachine c h s (j :: q) io pl t)
  = run colors host self n
        (snd (run_job colors host self j (mkMachine c h s q io pl t))).
Proof. reflexivity. Qed.

Lemma run_io (n : nat) c h s p o io pl t :
  run colors host self (S n) (mkMachine c h s [] ((p, o) :: io) pl t)
  = run colors host self n (snd (settle p o (mkMachine c h s [] io pl t))).
Proof. reflexivity. Qed.

Lemma run_idle (n : nat) (m : Machine) :
  idle m = true -> run colors host self n m = m.
Proof.
  unfold idle. destruct n as [|n]; [reflexivity|]. simpl.
  destruct (microtasks m); [|discriminate].
  destruct (io_queue m); [reflexivity | discriminate].
Qed.

End Run.

Ltac pre_split :=
  lazymatch goal with
  | |- context [run _ _ ?self (S _)
                  (mkMachine _ _ _
                     (ReactionJob
                        (mkReaction (Some H_provideResultsToReporters) _ _)
                        (inl (VArray (map VResult ?rs))) :: _) _ _ _)] =>
      destruct (truthy (reportToConsole (options self))) eqn:?;
      (destruct (truthy (failAfterAllErrors (options self))) eqn:?;
       [destruct (Nat.ltb 0 (countIssuesInResultList rs)) eqn:? | ])
  | |- context [run _ ?host _ (S _)
                  (mkMachine _ _ _
                     (ReactionJob (mkReaction _ (Some H_onError) _) (inr _)
                      :: _) _ _ _)] =>
      destruct (error_listener host) eqn:?
  | |- context [run _ _ _ (S _)
                  (mkMachine _ _ _ [] ((_, settled_of ?x) :: _) _ _)] =>
      destruct x eqn:?; cbn [settled_of]
  | _ => idtac
  end.

Ltac run_step :=
  first
    [ rewrite run_micro;
      lazymatch goal with
      | |- context [run_job ?co ?ho ?se ?j ?m] =>
          let H := fresh "Hjob" in
          eassert (H : run_job co ho se j m = _) by ev;
          rewrite H; clear H; cbv beta iota delta [snd]
      end
    | rewrite run_io;
      lazymatch goal with
      | |- context [settle ?p ?o ?m] =>
          let H := fresh "Hio" in
          eassert (H : settle p o m = _) by ev;
          rewrite H; clear H; cbv beta iota delta [snd]
      end ].

Ltac finish_run :=
  rewrite run_idle by reflexivity;
  split; [reflexivity|];
  unfold reporting_events, failure_events; use_cases;
  cbn [andb app trace]; rewrite <- ?app_assoc; cbn [app];
  rewrite ?app_nil_r; reflexivity.

(** The jobs from [provideResultsToReporters] on, whichever way they go. *)
Lemma reporters_run (colors : Colors) (host : Host) (self : Closure)
    (results : list Stylelint.Result) (pre : list PromiseState) S pl t c :
  let M := mkMachine c
             (pre ++ [Pending [mkReaction (Some H_done) None (length pre + 1)];
                      Pending [mkReaction None (Some H_onError) (length pre + 2)];
                      Pending []])
             S
             [ReactionJob (mkReaction (Some H_provideResultsToReporters) None
                                      (length pre + 0))
                          (inl (VArray (map VResult results)))]
             [] pl t in
  let finished := run colors host self 60 M in
  idle finished = true
  /\ trace finished
     = (t ++ reporting_events colors host self results)%list.
Proof.
  intros M finished. subst M finished.
  repeat (pre_split; run_step); finish_run.
Qed.

Lemma nth_mid {A : Type} (pre post : list A) (x d : A) (n : nat) :
  length pre = n -> nth n (pre ++ x :: post) d = x.
Proof. intros <-. apply nth_middle. Qed.

Lemma replace_nth_mid {A : Type} (pre post : list A) (x y : A) (n : nat) :
  length pre = n -> replace_nth n y (pre ++ x :: post) = (pre ++ y :: post)%list.
Proof.
  intros <-. induction pre as [|a pre IH]; simpl; [reflexivity|].
  rewrite IH. reflexivity.
Qed.

Lemma enqueue_all (f : Reaction -> Job) (rs : list Reaction) c h S q io pl t :
  for_each (fun r => enqueue (f r)) rs (mkMachine c h S q io pl t)
  = (Normal tt, mkMachine c h S (q ++ map f rs) io pl t).
Proof.
  revert q. induction rs as [|r rest IH]; intros q; simpl.
  - unfold ret. rewrite app_nil_r. reflexivity.
  - unfold bind, enqueue, modify. simpl.
    unfold set_microtasks. simpl. rewrite IH, <- app_assoc. reflexivity.
Qed.

Lemma settle_pending (p : nat) (s : Settled) (pre post : list PromiseState)
    (rs : list Reaction) c S q io pl t :
  length pre = p ->
  settle p s (mkMachine c (pre ++ Pending rs :: post) S q io pl t)
  = (Normal tt,
     mkMachine c (pre ++ settled_state s :: post) S
               (q ++ map (fun r => ReactionJob r s) rs) io pl t).
Proof.
  intros Hp. unfold settle, bind, promise_state, get. simpl.
  rewrite (nth_mid _ _ _ _ _ Hp).
  unfold set_promise, modify, set_heap. simpl.
  rewrite (replace_nth_mid _ _ _ _ _ Hp).
  rewrite enqueue_all. destruct s; reflexivity.
Qed.

Lemma then_pending (p : nat) (f r : option Handler)
    (pre post : list PromiseState) (rs : list Reaction) c S q io pl t :
  length pre = p ->
  then_ p f r (mkMachine c (pre ++ Pending rs :: post) S q io pl t)
  = (Normal (length (pre ++ Pending rs :: post)),
     mkMachine c
       (pre ++ Pending (rs ++ [mkReaction f r
                                 (length (pre ++ Pending rs :: post))])
            :: post ++ [Pending []])
       S q io pl t).
Proof.
  intros Hp. unfold then_, bind, new_promise, promise_state, get. simpl.
  rewrite <- app_assoc. simpl.
  rewrite (nth_mid _ _ _ _ _ Hp).
  unfold set_promise, modify, set_heap. simpl.
  rewrite (replace_nth_mid _ _ _ _ _ Hp). reflexivity.
Qed.

Lemma then_fulfilled (p : nat) (f r : option Handler)
    (pre post : list PromiseState) (v : Value) c S q io pl t :
  length pre = p ->
  then_ p f r (mkMachine c (pre ++ Fulfilled v :: post) S q io pl t)
  = (Normal (length (pre ++ Fulfilled v :: post)),
     mkMachine c
       (pre ++ Fulfilled v :: post ++ [Pending []])
       S
       (q ++ [ReactionJob
                (mkReaction f r (length (pre ++ Fulfilled v :: post)))
                (inl v)])
       io pl t).
Proof.
  intros Hp. unfold then_, bind, new_promise, promise_state, get. simpl.
  rewrite <- app_assoc. simpl.
  rewrite (nth_mid _ _ _ _ _ Hp).
  unfold enqueue, modify, set_microtasks. simpl. reflexivity.
Qed.

Section IntakeState.

Variable host : Host.
Variable self : Closure.

Lemma repeat_snoc {A : Type} (x : A) (n : nat) :
  (repeat x n ++ [x])%list = repeat x (S n).
Proof. rewrite <- repeat_cons. reflexivity. Qed.

(** The machine after the files are written into a plugin that holds
    nothing but pending lint promises. *)
Lemma intake_state (files : list File) (n : nat) c io pl t :
  existsb is_refusal t = false ->
  let start := mkMachine c (repeat (Pending []) n) [] [] io pl t in
  let linted := filter is_buffer (before_stream files) in
  exists new,
    snd (write_files host self files start)
    = mkMachine c (repeat (Pending []) (n + length linted)) [] []
        (io ++ map (fun jf => (fst jf, lint_outcome host self (snd jf)))
                   (indexed n linted))
        (pl ++ seq n (length linted))
        (t ++ new)
    /\ existsb is_refusal new = existsb isStream files
    /\ (existsb isStream files = false ->
        fst (write_files host self files start) = Normal tt)
    /\ existsb reports new = false.
Proof.
  cbv zeta. revert n io pl t.
  induction files as [|file rest IH]; intros n io pl t Ht.
  - exists []. simpl. rewrite !app_nil_r, Nat.add_0_r. repeat split.
  - rewrite write_files_cons. unfold unpiped. cbn [trace]. rewrite Ht.
    destruct file as [from [|data|]].
    + assert (Hone : onFile host self (mkFile from CNull)
                       (mkMachine c (repeat (Pending []) n) [] [] io pl t)
                     = (Normal tt,
                        mkMachine c (repeat (Pending []) n) [] [] io pl
                          (t ++ [Callback None (Some (mkFile from CNull))])))
        by reflexivity.
      rewrite Hone.
      destruct (IH n io pl
                  (t ++ [Callback None (Some (mkFile from CNull))])%list)
        as (new & Hsnd & Href & Hfst & Hquiet).
      { rewrite existsb_app, Ht. reflexivity. }
      exists (Callback None (Some (mkFile from CNull)) :: new).
      cbn [before_stream isStream contents filter is_buffer existsb orb
           is_refusal reports].
      rewrite Hsnd, <- app_assoc. repeat split; assumption.
    + assert (Hone : onFile host self (mkFile from (CBuffer data))
                       (mkMachine c (repeat (Pending []) n) [] [] io pl t)
                     = (Normal tt,
                        mkMachine c (repeat (Pending []) (S n)) [] []
                          (io ++ [(n, lint_outcome host self
                                        (mkFile from (CBuffer data)))])
                          (pl ++ [n])
                          (t ++ [Process data from;
                                 Callback None
                                   (Some (mkFile from (CBuffer data)))]))).
      { unfold onFile, bind, postcssProcessor_process, bind, emit_event,
          external_promise, bind, new_promise, modify, transform_done, bind,
          emit_event, modify, ret, set_trace, set_heap, set_io_queue,
          set_promiseList, lint_outcome.
        simpl. rewrite repeat_length, <- app_assoc, repeat_snoc.
        reflexivity. }
      rewrite Hone.
      destruct (IH (S n)
                  (io ++ [(n, lint_outcome host self
                                (mkFile from (CBuffer data)))])%list
                  (pl ++ [n])%list
                  (t ++ [Process data from;
                         Callback None (Some (mkFile from (CBuffer data)))])%list)
        as (new & Hsnd & Href & Hfst & Hquiet).
      { rewrite existsb_app, Ht. reflexivity. }
      exists (Process data from
              :: Callback None (Some (mkFile from (CBuffer data))) :: new).
      cbn [before_stream isStream contents filter is_buffer existsb orb
           is_refusal reports length indexed map fst snd seq].
      rewrite Hsnd, <- !app_assoc, Nat.add_succ_r. repeat split; assumption.
    + cbn [before_stream isStream contents filter is_buffer existsb orb
           length indexed map seq].
      rewrite !app_nil_r, Nat.add_0_r.
      unfold onFile, transform_done, bind, emit_event, modify, emit_error.
      cbn [isNull isStream contents].
      destruct (error_listener host).
      * exists [Callback (Some (PluginError pluginName
                                  "Streaming not supported")) None;
                EmitError (PluginError pluginName "Streaming not supported")].
        unfold emit_event, modify, set_trace.
        cbn [cwd heap slots microtasks io_queue promiseList trace].
        rewrite write_files_unpiped.
        -- rewrite <- app_assoc. repeat split; try discriminate.
        -- unfold unpiped. cbn [trace]. rewrite !existsb_app. simpl.
           rewrite !orb_true_r. reflexivity.
      * exists [Callback (Some (PluginError pluginName
                                  "Streaming not supported")) None].
        unfold throw, set_trace.
        cbn [cwd heap slots microtasks io_queue promiseList trace].
        repeat split; try discriminate.
Qed.

End IntakeState.


Lemma indexed_seq (j n : nat) :
  indexed j (map VPromise (seq j n))
  = map (fun i => (i, VPromise i)) (seq j n).
Proof.
  revert j. induction n as [|n IH]; intros j; simpl; [reflexivity|].
  rewrite IH. reflexivity.
Qed.

(** The loop of [Promise.all] over promises that are all pending. *)
Lemma all_loop (all n : nat) :
  forall (j : nat) (A B : list PromiseState) c S q io pl t,
    length A = j ->
    for_each
      (fun iv : nat * Value =>
         p <- Promise_resolve (snd iv) ;;
         then_ p (Some (H_allElement all (fst iv))) (Some (H_reject all)) ;;
         ret tt)
      (map (fun i => (i, VPromise i)) (seq j n))
      (mkMachine c (A ++ repeat (Pending []) n ++ B) S q io pl t)
    = (Normal tt,
       mkMachine c
         (A ++ map (fun i => Pending [all_reaction all i (n + length B + i)])
                   (seq j n)
            ++ B ++ repeat (Pending []) n)
         S q io pl t).
Proof.
  induction n as [|n IH]; intros j A B c S q io pl t HA.
  - simpl. unfold ret. rewrite app_nil_r. reflexivity.
  - cbn [seq map for_each repeat app]. unfold bind at 1. unfold bind at 1.
    cbn [snd fst Promise_resolve]. unfold ret at 1. unfold bind at 1.
    rewrite (then_pending j _ _ A _ [] c S q io pl t HA).
    unfold ret at 1. cbv beta iota.
    match goal with
    | |- for_each _ _ (mkMachine c ?h S q io pl t) = _ =>
        replace h
          with ((A ++ [Pending [all_reaction all j
                                  (Datatypes.S n + length B + j)]])
                  ++ repeat (Pending []) n ++ (B ++ [Pending []]))%list
    end.
    + rewrite (IH (Datatypes.S j)); [|rewrite length_app; simpl; lia].
      f_equal. f_equal. rewrite <- !app_assoc. cbn [app]. f_equal. f_equal.
      rewrite length_app. cbn [length].
      f_equal. apply map_ext_in. intros i _. f_equal. f_equal. f_equal. lia.
    + rewrite <- !app_assoc. cbn [app]. f_equal. unfold all_reaction.
      f_equal. f_equal. f_equal. f_equal.
      rewrite !length_app. cbn [length]. rewrite length_app, repeat_length.
      lia.
Qed.

Ltac proj_only :=
  unfold set_heap, set_slots, set_microtasks, set_io_queue, set_promiseList,
    set_trace;
  cbn [cwd heap slots microtasks io_queue promiseList trace].

Lemma settle_at (p : nat) (s : Settled) (h pre post : list PromiseState)
    (rs : list Reaction) c S q io pl t :
  h = (pre ++ Pending rs :: post)%list ->
  length pre = p ->
  settle p s (mkMachine c h S q io pl t)
  = (Normal tt,
     mkMachine c (pre ++ settled_state s :: post) S
               (q ++ map (fun r => ReactionJob r s) rs) io pl t).
Proof. intros ->. apply settle_pending. Qed.

Lemma then_at (p : nat) (f r : option Handler)
    (h pre post : list PromiseState) (rs : list Reaction) c S q io pl t :
  h = (pre ++ Pending rs :: post)%list ->
  length pre = p ->
  then_ p f r (mkMachine c h S q io pl t)
  = (Normal (length h),
     mkMachine c
       (pre ++ Pending (rs ++ [mkReaction f r (length h)])
            :: post ++ [Pending []])
       S q io pl t).
Proof. intros ->. apply then_pending. Qed.

Lemma map_const_repeat {A B : Type} (b : B) (l : list A) :
  map (fun _ => b) l = repeat b (length l).
Proof. induction l as [|a l IH]; simpl; [reflexivity | rewrite IH; reflexivity]. Qed.

Lemma stream_end_state (k : nat) c io t :
  onStreamEnd
    (mkMachine c (repeat (Pending []) (Datatypes.S k)) [] [] io
               (seq 0 (Datatypes.S k)) t)
  = (Normal tt,
     mkMachine c (waiting_heap (Datatypes.S k))
               [(Datatypes.S k, repeat None (Datatypes.S k))] [] io
               (seq 0 (Datatypes.S k)) t).
Proof.
  set (n := Datatypes.S k).
  unfold onStreamEnd. unfold bind at 1. unfold get at 1.
  proj_only. unfold bind at 1.
  assert (Hall : Promise_all (map VPromise (seq 0 n))
                   (mkMachine c (repeat (Pending []) n) [] [] io (seq 0 n) t)
                 = (Normal n,
                    mkMachine c
                      (map (fun i => Pending [all_reaction n i (n + 1 + i)])
                           (seq 0 n)
                       ++ Pending [] :: repeat (Pending []) n)
                      [(n, repeat None n)] [] io (seq 0 n) t)).
  { unfold Promise_all. unfold bind at 1. unfold new_promise at 1.
    proj_only.
    rewrite repeat_length.
    change (map VPromise (seq 0 n))
      with (VPromise 0 :: map VPromise (seq 1 k)).
    cbv beta iota.
    change (VPromise 0 :: map VPromise (seq 1 k))
      with (map VPromise (seq 0 n)).
    unfold bind at 1. unfold modify at 1.
    proj_only.
    rewrite map_const_repeat, length_map, length_seq.
    unfold bind at 1. rewrite indexed_seq.
    pose proof (all_loop n n 0 [] [Pending []] c [(n, repeat None n)] []
                  io (seq 0 n) t eq_refl) as Hloop.
    cbn [app length] in Hloop. rewrite Hloop.
    unfold ret. reflexivity. }
  rewrite Hall. clear Hall.
  set (A := map (fun i => Pending [all_reaction n i (n + 1 + i)]) (seq 0 n)).
  assert (HA : length A = n) by (unfold A; rewrite length_map, length_seq; reflexivity).
  unfold bind at 1.
  rewrite (then_at n _ _ _ A (repeat (Pending []) n) [] c _ _ io _ t eq_refl HA).
  unfold bind at 1.
  erewrite (then_at _ _ _ _ (A ++ Pending _ :: repeat (Pending []) n) [] []);
    [ | rewrite <- app_assoc; reflexivity
      | do 3 (rewrite ?length_app; cbn [length]); lia ].
  unfold bind at 1.
  erewrite (then_at _ _ _ _
              ((A ++ Pending _ :: repeat (Pending []) n) ++ [Pending _]) [] []);
    [ | rewrite <- ?app_assoc; reflexivity
      | do 3 (rewrite ?length_app; cbn [length]); lia ].
  unfold ret, waiting_heap. fold n. fold A.
  f_equal. f_equal.
  repeat (rewrite ?length_app; cbn [length app]).
  rewrite ?HA, ?repeat_length.
  rewrite <- ?app_assoc. cbn [app]. rewrite <- ?app_assoc. cbn [app].
  replace (n + Datatypes.S n) with (2 * n + 1) by lia.
  replace (n + Datatypes.S (n + 1)) with (2 * n + 2) by lia.
  replace (2 * n + 1 + 2) with (2 * n + 3) by lia.
  reflexivity.
Qed.

Lemma all_filled_done (l : list Value) : all_filled (map Some l) = Some l.
Proof.
  induction l as [|v l IH]; simpl; [reflexivity|]. rewrite IH. reflexivity.
Qed.

Lemma all_filled_hole (l : list Value) (rest : list (option Value)) :
  all_filled (map Some l ++ None :: rest) = None.
Proof.
  induction l as [|v l IH]; simpl; [reflexivity|]. rewrite IH. reflexivity.
Qed.

Section Rounds.

Variable colors : Colors.
Variable host : Host.
Variable self : Closure.

(** One lint promise of several is fulfilled while [Promise.all] still
    waits for others. *)
Lemma round_more (k j m : nat) (v : Value) (rprov : Reaction)
    (A P D Q T : list PromiseState) (vdone : list Value) S
    (io : list (nat * Settled)) c pl t (fuel : nat) :
  length A = j ->
  length vdone = j ->
  length (A ++ Fulfilled v :: P ++ Pending [rprov] :: D) = k + 1 + j ->
  run colors host self (Datatypes.S (Datatypes.S fuel))
    (mkMachine c
       (A ++ Pending [all_reaction k j (k + 1 + j)]
          :: P ++ Pending [rprov] :: D ++ Pending [] :: Q ++ T)
       ((k, map Some vdone ++ None :: repeat None (Datatypes.S m)) :: S)
       [] ((j, inl v) :: io) pl t)
  = run colors host self fuel
      (mkMachine c
         (A ++ Fulfilled v
            :: P ++ Pending [rprov] :: D ++ Fulfilled VUndefined :: Q ++ T)
         ((k, map Some (vdone ++ [v]) ++ repeat None (Datatypes.S m))
          :: (k, map Some vdone ++ None :: repeat None (Datatypes.S m))
          :: S)
         [] io pl t).
Proof.
  intros HA Hv Hd.
  rewrite run_io.
  rewrite (settle_at j (inl v) _ A _ [all_reaction k j (k + 1 + j)]
             c _ _ _ _ _ eq_refl HA).
  cbn [snd app map settled_state]. rewrite run_micro.
  f_equal.
  unfold run_job, all_reaction. cbn [on_fulfilled on_rejected derived].
  unfold try_catch, bind at 1.
  unfold run_handler, all_element.
  unfold bind at 1. unfold get at 1. proj_only.
  cbn [find_slots]. rewrite Nat.eqb_refl.
  rewrite (replace_nth_mid _ _ _ _ _ (eq_trans (length_map _ _) Hv)).
  unfold bind at 1. unfold modify at 1. proj_only.
  unfold bind at 1.
  replace (map Some vdone ++ Some v :: repeat None (Datatypes.S m))%list
    with (map Some (vdone ++ [v]) ++ None :: repeat None m)%list
    by (rewrite map_app, <- app_assoc; reflexivity).
  rewrite all_filled_hole. unfold ret at 1. unfold ret at 1.
  unfold resolve.
  erewrite (settle_at (k + 1 + j) (inl VUndefined) _
              (A ++ Fulfilled v :: P ++ Pending [rprov] :: D) (Q ++ T) []);
    [ | rewrite <- ?app_assoc; cbn [app]; rewrite <- ?app_assoc; reflexivity
      | exact Hd ].
  cbn [snd map app settled_state].
  f_equal. rewrite <- ?app_assoc. cbn [app]. rewrite <- ?app_assoc.
  reflexivity.
Qed.

(** The last lint promise is fulfilled: [Promise.all] is fulfilled with
    the array of all the values. *)
Lemma round_last (k j : nat) (v : Value) (rprov : Reaction)
    (A D T : list PromiseState) (vdone : list Value) S
    (io : list (nat * Settled)) c pl t (fuel : nat) :
  length A = j ->
  length vdone = j ->
  Datatypes.S j = k ->
  length D = j ->
  run colors host self (Datatypes.S (Datatypes.S fuel))
    (mkMachine c
       (A ++ Pending [all_reaction k j (k + 1 + j)]
          :: Pending [rprov] :: D ++ Pending [] :: T)
       ((k, map Some vdone ++ [None]) :: S)
       [] ((j, inl v) :: io) pl t)
  = run colors host self fuel
      (mkMachine c
         (A ++ Fulfilled v
            :: Fulfilled (VArray (vdone ++ [v]))
            :: D ++ Fulfilled VUndefined :: T)
         ((k, map Some (vdone ++ [v])) :: (k, map Some vdone ++ [None]) :: S)
         [ReactionJob rprov (inl (VArray (vdone ++ [v])))] io pl t).
Proof.
  intros HA Hv Hk HD.
  rewrite run_io.
  rewrite (settle_at j (inl v) _ A _ [all_reaction k j (k + 1 + j)]
             c _ _ _ _ _ eq_refl HA).
  cbn [snd app map settled_state]. rewrite run_micro.
  f_equal.
  unfold run_job, all_reaction. cbn [on_fulfilled on_rejected derived].
  unfold try_catch, bind at 1.
  unfold run_handler, all_element.
  unfold bind at 1. unfold get at 1. proj_only.
  cbn [find_slots]. rewrite Nat.eqb_refl.
  rewrite (replace_nth_mid _ _ _ _ _ (eq_trans (length_map _ _) Hv)).
  unfold bind at 1. unfold modify at 1. proj_only.
  unfold bind at 1.
  replace (map Some vdone ++ [Some v])
    with (map Some (vdone ++ [v]))
    by (rewrite map_app; reflexivity).
  rewrite all_filled_done.
  erewrite (settle_at k (inl (VArray (vdone ++ [v]))) _
              (A ++ [Fulfilled v]) (D ++ Pending [] :: T) [rprov]);
    [ | rewrite <- ?app_assoc; reflexivity
      | rewrite length_app; cbn [length]; lia ].
  unfold ret at 1. unfold resolve.
  erewrite (settle_at (k + 1 + j) (inl VUndefined) _
              ((A ++ [Fulfilled v])
                 ++ Fulfilled (VArray (vdone ++ [v])) :: D) T []);
    [ | rewrite <- ?app_assoc; cbn [app]; rewrite <- ?app_assoc; reflexivity
      | repeat (rewrite ?length_app; cbn [length]); lia ].
  cbn [snd map app settled_state].
  f_equal. rewrite <- ?app_assoc. cbn [app]. rewrite <- ?app_assoc.
  reflexivity.
Qed.

Lemma indexed_app_results (j : nat) (todo : list Stylelint.Result) :
  map (fun ir : nat * Stylelint.Result =>
         (fst ir, inl (VResult (snd ir)) : Settled))
      (indexed j todo)
  = match todo with
    | [] => []
    | r :: rest =>
        (j, inl (VResult r))
        :: map (fun ir : nat * Stylelint.Result =>
                  (fst ir, inl (VResult (snd ir)) : Settled))
               (indexed (Datatypes.S j) rest)
    end.
Proof. destruct todo; reflexivity. Qed.

(** All lint promises are fulfilled one after the other. *)
Lemma rounds_ok (k : nat) (rprov : Reaction) (T : list PromiseState) c pl t :
  forall (todo : list Stylelint.Result) (A D : list PromiseState)
         (vdone : list Value) S,
    todo <> [] ->
    length A + length todo = k ->
    length D = length A ->
    length vdone = length A ->
    exists S', forall fuel,
      run colors host self (2 * length todo + fuel)
        (mkMachine c
           (A ++ map (fun i => Pending [all_reaction k i (k + 1 + i)])
                     (seq (length A) (length todo))
              ++ Pending [rprov] :: D
              ++ repeat (Pending []) (length todo) ++ T)
           ((k, map Some vdone ++ repeat None (length todo)) :: S)
           []
           (map (fun ir : nat * Stylelint.Result =>
                   (fst ir, inl (VResult (snd ir)) : Settled))
                (indexed (length A) todo))
           pl t)
      = run colors host self fuel
          (mkMachine c
             (A ++ map (fun r => Fulfilled (VResult r)) todo
                ++ Fulfilled (VArray (vdone ++ map VResult todo)) :: D
                ++ repeat (Fulfilled VUndefined) (length todo) ++ T)
             S'
             [ReactionJob rprov (inl (VArray (vdone ++ map VResult todo)))]
             [] pl t).
Proof.
  induction todo as [|r rest IH]; intros A D vdone S Hne Hk HD Hv;
    [congruence|].
  destruct rest as [|r' rest'].
  - clear IH. eexists. intros fuel.
    cbn [length seq map repeat indexed fst snd app Nat.mul Nat.add].
    cbn [length] in Hk.
    apply round_last; [reflexivity | exact Hv | lia | exact HD].
  - destruct (IH (A ++ [Fulfilled (VResult r)])
                 (D ++ [Fulfilled VUndefined])
                 (vdone ++ [VResult r])
                 ((k, map Some vdone
                        ++ None :: repeat None (length (r' :: rest'))) :: S))
      as [S' HS'].
    + discriminate.
    + rewrite length_app. cbn [length] in *. lia.
    + rewrite !length_app. cbn [length]. lia.
    + rewrite !length_app. cbn [length]. lia.
    + exists S'. intros fuel.
      specialize (HS' fuel).
      rewrite length_app in HS'. cbn [length] in HS'.
      replace (length A + 1) with (Datatypes.S (length A)) in HS' by lia.
      pose proof (round_more k (length A) (length rest') (VResult r) rprov A
                    (map (fun i => Pending [all_reaction k i (k + 1 + i)])
                         (seq (Datatypes.S (length A)) (length (r' :: rest'))))
                    D (repeat (Pending []) (length (r' :: rest'))) T vdone S
                    (map (fun ir : nat * Stylelint.Result =>
                            (fst ir, inl (VResult (snd ir)) : Settled))
                         (indexed (Datatypes.S (length A)) (r' :: rest')))
                    c pl t
                    (2 * length (r' :: rest') + fuel) eq_refl Hv) as Hround.
      replace (2 * length (r :: r' :: rest') + fuel)
        with (Datatypes.S (Datatypes.S (2 * length (r' :: rest') + fuel)))
        by (cbn [length]; lia).
      cbn [length seq map repeat indexed fst snd app] in HS', Hround |- *.
      rewrite <- ?app_assoc in HS'. rewrite <- ?app_assoc in Hround.
      rewrite <- ?app_assoc.
      cbn [length seq map repeat indexed fst snd app] in HS', Hround |- *.
      eapply eq_trans; [apply Hround | exact HS'].
      repeat (rewrite ?length_app; cbn [length]).
      rewrite length_map, length_seq.
      cbn [length] in Hk. lia.
Qed.

End Rounds.

Lemma construct_boot (host : Host) (arg : option Options) (d : string)
    (c : Completion Closure) (m1 : Machine) :
  gulpStylelintCheckstyle host arg (boot d) = (c, m1) -> m1 = boot d.
Proof.
  unfold gulpStylelintCheckstyle, bind, modify, get, path_resolve_js.
  cbn [set_promiseList boot cwd heap slots microtasks io_queue promiseList
       trace].
  destruct (js_or _ _); unfold throw, ret; intros H; inversion H; reflexivity.
Qed.

Section Assembly.

Variable colors : Colors.
Variable host : Host.
Variable self : Closure.

Lemma run_add (a b : nat) (m : Machine) :
  run colors host self (a + b) m
  = run colors host self b (run colors host self a m).
Proof.
  revert m. induction a as [|a IH]; intros m; [reflexivity|].
  cbn [Nat.add run].
  destruct (microtasks m) as [|j q] eqn:Hq.
  - destruct (io_queue m) as [|[p s] io] eqn:Hio.
    + symmetry. apply run_idle. unfold idle. rewrite Hq, Hio. reflexivity.
    + apply IH.
  - apply IH.
Qed.

Lemma before_stream_plain (files : list File) :
  existsb isStream files = false -> before_stream files = files.
Proof.
  induction files as [|file rest IH]; [reflexivity|].
  cbn [existsb before_stream]. destruct (isStream file); [discriminate|].
  intros Hrest. rewrite (IH Hrest). reflexivity.
Qed.

Lemma linted_outcomes (files : list File) (results : list Stylelint.Result)
    (n : nat) :
  Forall2 (lints_to host self) files results ->
  map (fun jf => (fst jf, lint_outcome host self (snd jf))) (indexed n files)
  = map (fun ir : nat * Stylelint.Result =>
           (fst ir, inl (VResult (snd ir)) : Settled))
        (indexed n results).
Proof.
  intros Hall. revert n.
  induction Hall as [|f r fs rs [Hlint Hfrom] _ IH]; intros n;
    [reflexivity|].
  cbn [indexed map fst snd]. rewrite IH. f_equal. f_equal.
  unfold lint_outcome. rewrite Hlint, <- Hfrom. destruct r; reflexivity.
Qed.

Lemma done_stays_done (fuel extra : nat) (m : Machine) :
  idle (run colors host self fuel m) = true ->
  run colors host self (fuel + extra) m = run colors host self fuel m.
Proof. intros Hidle. rewrite run_add. apply run_idle. exact Hidle. Qed.

(** X9.  A batch of [files] without a stream is written into the plugin
    and the plugin is ended, with the linter succeeding on every buffer:
    the event loop comes to rest, and from the end of the input on an
    observer sees what [reporting_events] lists for the results in the
    order of the files.  That is the console lines if asked for; then,
    unless the fail-after-all-errors reporter throws, the directory made,
    the report of the adapted results written and the stream flushed, a
    failure of either step being emitted before the flush; and when that
    reporter throws, its error emitted and the stream flushed first and the
    report written afterwards. *)
Theorem stream_reports_linted_files
    (arg : option Options) (files : list File) (d : string)
    (started : Machine) (results : list Stylelint.Result) :
  existsb isStream files = false ->
  pipe host arg files (boot d) = (Normal self, started) ->
  Forall2 (lints_to host self) (filter is_buffer files) results ->
  exists fuel, forall extra,
    let finished := run colors host self (fuel + extra) started in
    idle finished = true
    /\ trace finished
       = trace started ++ reporting_events colors host self results.
Proof.
  intros Hplain Hpipe Hlint.
  unfold pipe in Hpipe. unfold bind at 1 in Hpipe.
  destruct (gulpStylelintCheckstyle host arg (boot d))
    as [[self'|e] m1] eqn:Hc; [|discriminate Hpipe].
  apply construct_boot in Hc. subst m1.
  unfold bind at 1 in Hpipe.
  destruct (intake_state host self' files 0 d [] [] [] eq_refl)
    as (new & Hsnd & Href & Hfst & Hquiet).
  specialize (Hfst Hplain). rewrite Hplain in Href.
  rewrite (before_stream_plain files Hplain) in Hsnd.
  change (mkMachine d (repeat (Pending []) 0) [] [] [] [] [])
    with (boot d) in Hsnd, Hfst.
  destruct (write_files host self' files (boot d)) as [done fed].
  cbn [fst snd] in Hsnd, Hfst. subst done fed.
  cbn [Nat.add app] in Hpipe.
  unfold bind at 1 in Hpipe.
  unfold end_of_files at 1, bind at 1, get in Hpipe.
  unfold unpiped at 1 in Hpipe. cbn [trace app] in Hpipe.
  rewrite Href in Hpipe.
  assert (Hself : self' = self).
  { unfold ret in Hpipe.
    destruct (onStreamEnd _) as [[[]|e] m2]; inversion Hpipe; reflexivity. }
  subst self'.
  rewrite (linted_outcomes _ _ 0 Hlint) in Hpipe.
  pose proof (Forall2_length Hlint) as Hlen. rewrite Hlen in Hpipe.
  clear Hlen Hlint.
  destruct results as [|r rs].
  - assert (Hstart :
      started
      = mkMachine d
          ([Fulfilled (VArray [])]
             ++ [Pending [mkReaction (Some H_done) None
                            (length [Fulfilled (VArray [])] + 1)];
                 Pending [mkReaction None (Some H_onError)
                            (length [Fulfilled (VArray [])] + 2)];
                 Pending []])
          []
          [ReactionJob
             (mkReaction (Some H_provideResultsToReporters) None
                         (length [Fulfilled (VArray [])] + 0))
             (inl (VArray (map VResult [])))]
          [] [] new).
    { vm_compute in Hpipe. inversion Hpipe. reflexivity. }
    pose proof (reporters_run colors host self [] [Fulfilled (VArray [])] [] [] new d)
      as Htail.
    cbv zeta in Htail. rewrite <- Hstart in Htail.
    exists 60. intros extra. cbv zeta.
    rewrite (done_stays_done 60 extra started (proj1 Htail)).
    rewrite Hstart at 3. exact Htail.
  - cbn [length] in Hpipe.
    rewrite stream_end_state in Hpipe.
    unfold ret in Hpipe. injection Hpipe as Hstart.
    change (Datatypes.S (length rs)) with (length (r :: rs)).
    set (k := length (r :: rs)).
    set (T := [Pending [mkReaction (Some H_done) None (2 * k + 2)];
               Pending [mkReaction None (Some H_onError) (2 * k + 3)];
               Pending []]).
    set (rprov := mkReaction (Some H_provideResultsToReporters) None
                             (2 * k + 1)).
    destruct (rounds_ok colors host self k rprov T d (seq 0 k) new
                (r :: rs) [] [] [] [])
      as [S' Hrounds]; try reflexivity; [discriminate|].
    set (pre := map (fun x => Fulfilled (VResult x)) (r :: rs)
                  ++ Fulfilled (VArray (map VResult (r :: rs)))
                  :: repeat (Fulfilled VUndefined) (length (r :: rs))).
    assert (Hpre : length pre = 2 * k + 1).
    { unfold pre, k. rewrite length_app, length_map. cbn [length].
      rewrite repeat_length. lia. }
    pose proof (reporters_run colors host self (r :: rs) pre S' (seq 0 k) new d)
      as Htail.
    cbv zeta in Htail.
    replace (length pre + 0) with (2 * k + 1) in Htail by lia.
    replace (length pre + 1) with (2 * k + 2) in Htail by lia.
    replace (length pre + 2) with (2 * k + 3) in Htail by lia.
    exists (2 * length (r :: rs) + 60). intros extra. cbv zeta.
    replace (2 * length (r :: rs) + 60 + extra)
      with (2 * length (r :: rs) + (60 + extra)) by lia.
    assert (Hgo : forall fuel,
               run colors host self (2 * length (r :: rs) + fuel) started
               = run colors host self fuel
                   (mkMachine d (pre ++ T) S'
                      [ReactionJob rprov
                         (inl (VArray (map VResult (r :: rs))))]
                      [] (seq 0 k) new)).
    { intros fuel. rewrite <- Hstart.
      etransitivity; [exact (Hrounds fuel)|].
      unfold pre. rewrite <- app_assoc. reflexivity. }
    rewrite Hgo. unfold T, rprov.
    rewrite (done_stays_done 60 extra _ (proj1 Htail)).
    rewrite <- Hstart. exact Htail.
Qed.

End Assembly.

Lemma stream_reports_linted_files_witness :
  let started :=
    snd (pipe Sample.quiet_host (Some Sample.console_and_fail)
              [Sample.hollow; Sample.a_css] (boot "/work")) in
  existsb isStream [Sample.hollow; Sample.a_css] = false
  /\ Forall2 (lints_to Sample.quiet_host Sample.there)
             (filter is_buffer [Sample.hollow; Sample.a_css])
             [Stylelint.mkResult "a.css" [Sample.empty_block]]
  /\ exists fuel, forall extra,
       let finished :=
         run Sample.no_colors Sample.quiet_host Sample.there (fuel + extra)
             started in
       idle finished = true
       /\ trace finished
          = trace started
            ++ reporting_events Sample.no_colors Sample.quiet_host
                 Sample.there
                 [Stylelint.mkResult "a.css" [Sample.empty_block]].
Proof.
  intros started.
  assert (Hlint : Forall2 (lints_to Sample.quiet_host Sample.there)
                    (filter is_buffer [Sample.hollow; Sample.a_css])
                    [Stylelint.mkResult "a.css" [Sample.empty_block]]).
  { constructor; [split; reflexivity | constructor]. }
  split; [reflexivity|]. split; [exact Hlint|].
  apply (stream_reports_linted_files Sample.no_colors Sample.quiet_host
           Sample.there (Some Sample.console_and_fail)
           [Sample.hollow; Sample.a_css] "/work" started
           [Stylelint.mkResult "a.css" [Sample.empty_block]]).
  - reflexivity.
  - vm_compute. reflexivity.
  - exact Hlint.
Defined.

Section Aborted.

Variable colors : Colors.
Variable host : Host.
Variable self : Closure.

Lemma unobserved_replace_nth (p : nat) (s : PromiseState)
    (h : list PromiseState) :
  unobserved s -> Forall unobserved h -> Forall unobserved (replace_nth p s h).
Proof.
  intros Hs Hh. revert p.
  induction Hh as [|x rest Hx Hrest IH]; intros p;
    [destruct p; constructor|].
  destruct p as [|p]; cbn [replace_nth]; constructor; auto.
Qed.

Lemma unobserved_nth (p : nat) (h : list PromiseState) :
  Forall unobserved h -> unobserved (nth p h (Pending [])).
Proof.
  intros Hh. revert p.
  induction Hh as [|x rest Hx _ IH]; intros [|p]; cbn [nth]; auto;
    exact I.
Qed.

(** A completion that arrives at a calm machine settles its promise and
    wakes nobody. *)
Lemma settle_calm (p : nat) (s : Settled) (rest : list (nat * Settled))
    (m : Machine) :
  calm m ->
  let after := snd (settle p s (set_io_queue rest m)) in
  calm after /\ trace after = trace m /\ io_queue after = rest.
Proof.
  intros [Hq Hh]. cbv zeta.
  unfold settle, bind, promise_state, get.
  cbn [heap set_io_queue].
  pose proof (unobserved_nth p (heap m) Hh) as Hp.
  destruct (nth p (heap m) (Pending [])) as [[|r rs]|v|e]; try contradiction.
  - unfold set_promise, modify, ret, calm. cbn. rewrite Hq.
    repeat split.
    apply unobserved_replace_nth; [destruct s; exact I | exact Hh].
  - unfold ret, calm. cbn. auto.
  - unfold ret, calm. cbn. auto.
Qed.

Lemma run_calm (fuel : nat) (m : Machine) :
  calm m ->
  trace (run colors host self fuel m) = trace m
  /\ (length (io_queue m) <= fuel ->
      idle (run colors host self fuel m) = true).
Proof.
  revert m. induction fuel as [|fuel IH]; intros m Hcalm.
  - split; [reflexivity|]. intros Hlen. unfold idle.
    destruct Hcalm as [Hq _]. cbn [run]. rewrite Hq.
    destruct (io_queue m); [reflexivity | cbn in Hlen; lia].
  - cbn [run]. destruct Hcalm as [Hq Hh]. rewrite Hq.
    destruct (io_queue m) as [|[p s] rest] eqn:Hio.
    + split; [reflexivity|]. intros _. unfold idle. rewrite Hq, Hio.
      reflexivity.
    + destruct (settle_calm p s rest m (conj Hq Hh)) as (Hc & Ht & Hrest).
      destruct (IH _ Hc) as [IHt IHi].
      split; [rewrite IHt; exact Ht|].
      intros Hlen. apply IHi. rewrite Hrest. cbn in Hlen. lia.
Qed.

(** X10.  A batch with a stream in it is never reported: whatever the
    options, and whether or not somebody listens for the error, nothing of
    the reporting has happened when the source is through, and nothing
    happens later, however long the event loop runs: no console line, no
    directory, no report file, no flush.  The lints that were started
    complete and the loop comes to rest. *)
Theorem aborted_batch_never_reports
    (arg : option Options) (files : list File) (d : string)
    (outcome : Completion Closure) (started : Machine) :
  existsb isStream files = true ->
  pipe host arg files (boot d) = (outcome, started) ->
  existsb reports (trace started) = false
  /\ (forall fuel,
        trace (run colors host self fuel started) = trace started)
  /\ (forall extra,
        idle (run colors host self (length (io_queue started) + extra)
                  started) = true).
Proof.
  intros Hstream Hpipe.
  assert (Hcalm : calm started /\ existsb reports (trace started) = false).
  { unfold pipe in Hpipe. unfold bind at 1 in Hpipe.
    destruct (gulpStylelintCheckstyle host arg (boot d))
      as [[self'|e] m1] eqn:Hc; apply construct_boot in Hc; subst m1.
    - unfold bind at 1 in Hpipe.
      destruct (intake_state host self' files 0 d [] [] [] eq_refl)
        as (new & Hsnd & Href & _ & Hquiet).
      rewrite Hstream in Href.
      change (mkMachine d (repeat (Pending []) 0) [] [] [] [] [])
        with (boot d) in Hsnd.
      destruct (write_files host self' files (boot d)) as [done fed].
      cbn [snd] in Hsnd. subst fed. cbn [app] in Hpipe.
      assert (Hstarted :
                started
                = mkMachine d
                    (repeat (Pending [])
                       (0 + length (filter is_buffer (before_stream files))))
                    [] []
                    (map (fun jf => (fst jf, lint_outcome host self' (snd jf)))
                         (indexed 0 (filter is_buffer (before_stream files))))
                    (seq 0 (length (filter is_buffer (before_stream files))))
                    new).
      { destruct done as [[]|e].
        - unfold bind, end_of_files, bind, get, unpiped, ret in Hpipe.
          cbn [trace] in Hpipe. rewrite Href in Hpipe.
          inversion Hpipe. reflexivity.
        - inversion Hpipe. reflexivity. }
      rewrite Hstarted. unfold calm. cbn [microtasks heap trace].
      repeat split; [|exact Hquiet].
      apply Forall_forall. intros x Hx. apply repeat_spec in Hx. subst x.
      exact I.
    - inversion Hpipe. subst. unfold calm, boot. cbn. auto. }
  destruct Hcalm as [Hcalm Hquiet].
  split; [exact Hquiet|]. split.
  - intros fuel. apply run_calm. exact Hcalm.
  - intros extra. apply run_calm; [exact Hcalm | lia].
Qed.

End Aborted.

Lemma aborted_batch_never_reports_witness :
  let piped :=
    pipe Sample.quiet_host (Some Sample.console_and_fail)
         [Sample.a_css; Sample.piped; Sample.hollow] (boot "/work") in
  existsb isStream [Sample.a_css; Sample.piped; Sample.hollow] = true
  /\ existsb reports (trace (snd piped)) = false
  /\ (forall fuel,
        trace (run Sample.no_colors Sample.quiet_host Sample.there fuel
                   (snd piped))
        = trace (snd piped))
  /\ (forall extra,
        idle (run Sample.no_colors Sample.quiet_host Sample.there
                  (length (io_queue (snd piped)) + extra) (snd piped))
        = true).
Proof.
  intros piped. split; [reflexivity|].
  apply (aborted_batch_never_reports Sample.no_colors Sample.quiet_host
           Sample.there (Some Sample.console_and_fail)
           [Sample.a_css; Sample.piped; Sample.hollow] "/work"
           (fst piped) (snd piped)).
  - reflexivity.
  - vm_compute. reflexivity.
Defined.

(** ** The resolving functions of the promises are not observed *)

















Section Silent.

Variable colors : Colors.
Variable host : Host.
Variable self : Closure.




End Silent.

Section Failure.

Variable colors : Colors.
Variable host : Host.
Variable self : Closure.








End Failure.

